(** * Lumina PDF bot: retrieval engine and conversation store

    A shallow embedding of the retrieval core of the repository
    (src/engine/lightweight_embeddings.py, src/engine/vector_store.py,
    src/engine/rag_engine.py, src/services/chat_manager.py and
    src/utils/utils.py) together with the properties its specification
    states about it, and further properties of the same code, of the
    checks before an upload (src/api/app.py) and of the retry loop of the
    handlers (src/handlers).

    Python exceptions are values of [exn]; a function that may raise returns
    a [result]; a method that also mutates its object or the disk is a
    function from the state before to a result and the state after
    ([action]).  The libraries the program calls (numpy, scikit-learn,
    langchain, PyPDF2, python-docx, json) are not part of the repository:
    what the program needs of them is collected in the class [External]. *)

From Stdlib Require Import String Ascii List ZArith Bool Lia.
From Stdlib Require Import Sorting.Sorted.
From Stdlib Require QArith.
From stdpp Require Import base option list gmap strings sorting pretty.

Open Scope string_scope.

(** ** Exceptions and results *)

Inductive exn : Type :=
| ValueError (msg : string)
| RuntimeError (msg : string)
| IndexError (msg : string)
| NotFittedError (msg : string)
| IsADirectoryError (msg : string)
| FileNotFoundError (msg : string)
| UnpicklingError (msg : string)
| JSONDecodeError (msg : string).

(** [str(e)]: the message an exception was raised with. *)
Definition str (e : exn) : string :=
  match e with
  | ValueError m | RuntimeError m | IndexError m | NotFittedError m
  | IsADirectoryError m | FileNotFoundError m | UnpicklingError m | JSONDecodeError m => m
  end.

Inductive result (A : Type) : Type :=
| Return (a : A)
| Raise (e : exn).
Arguments Return {A} a.
Arguments Raise {A} e.

#[global] Instance result_ret : MRet result := @Return.
#[global] Instance result_bind : MBind result :=
  λ A B f r, match r with Return a => f a | Raise e => Raise e end.
#[global] Instance result_fmap : FMap result :=
  λ A B f r, match r with Return a => Return (f a) | Raise e => Raise e end.

(** [try: body except Exception as e: handler e] for code without effects. *)
Definition try_except {A} (body : result A) (handler : exn → result A) : result A :=
  match body with
  | Return a => Return a
  | Raise e => handler e
  end.

(** A method with effects on a state [S]: the state after is the state the
    body reached, also when it raises. *)
Definition action (S A : Type) : Type := S → result A * S.

#[global] Instance action_ret {S} : MRet (action S) := λ A a s, (Return a, s).
#[global] Instance action_bind {S} : MBind (action S) :=
  λ A B f c s,
    match c s with
    | (Return a, s') => f a s'
    | (Raise e, s') => (Raise e, s')
    end.

Definition raise {S A} (e : exn) : action S A := λ s, (Raise e, s).
Definition lift {S A} (r : result A) : action S A := λ s, (r, s).
Definition get {S} : action S S := λ s, (Return s, s).
Definition modify {S} (f : S → S) : action S unit := λ s, (Return tt, f s).

Definition try_except_action {S A} (body : action S A)
    (handler : exn → action S A) : action S A :=
  λ s,
    match body s with
    | (Return a, s') => (Return a, s')
    | (Raise e, s') => handler e s'
    end.

(** ** Python sequences *)

(** [l[idx]] for an index that is not negative. *)
Definition py_index {A} (l : list A) (idx : nat) : result A :=
  match l !! idx with
  | Some x => Return x
  | None => Raise (IndexError "list index out of range")
  end.

(** [l[:k]]: a negative [k] counts from the end. *)
Definition py_slice_to {A} (k : Z) (l : list A) : list A :=
  if (0 <=? k)%Z then take (Z.to_nat k) l
  else take (length l - Z.to_nat (- k)) l.

(** ** Python strings, on ASCII *)

Definition chars (s : string) : list ascii := list_ascii_of_string s.
Definition of_chars (l : list ascii) : string := string_of_list_ascii l.

Definition char_in (lo hi c : ascii) : bool :=
  Nat.leb (nat_of_ascii lo) (nat_of_ascii c) && Nat.leb (nat_of_ascii c) (nat_of_ascii hi).

(** The ASCII characters [str.isspace] and the pattern [\s] accept. *)
Definition is_space (c : ascii) : bool :=
  let n := nat_of_ascii c in
  (Nat.leb 9 n && Nat.leb n 13) || (Nat.leb 28 n && Nat.leb n 32).

Definition is_alnum (c : ascii) : bool :=
  char_in "a" "z" c || char_in "A" "Z" c || char_in "0" "9" c.

Definition lower_char (c : ascii) : ascii :=
  if char_in "A" "Z" c then ascii_of_nat (nat_of_ascii c + 32) else c.

(** [s.lower()] *)
Definition lower (s : string) : string := of_chars (lower_char <$> chars s).

Fixpoint drop_spaces (l : list ascii) : list ascii :=
  match l with
  | c :: l' => if is_space c then drop_spaces l' else l
  | [] => []
  end.

(** [s.strip()] on a list of characters. *)
Definition strip_chars (l : list ascii) : list ascii :=
  reverse (drop_spaces (reverse (drop_spaces l))).

(** [not s.strip()]: the text is empty or all white space. *)
Definition is_blank (s : string) : bool := forallb is_space (chars s).

(** ** numpy's insertion sort

    [np.argsort] with the default kind promises the indices that sort the
    array in ascending order, and no order among equal values.  On a small
    array (up to 16 entries) numpy's own code is a plain insertion sort that
    moves an entry only past strictly greater ones, so equal values stay in
    the order of their indices.  [stable_argsort] computes the order that
    sort returns; the reference instance of the libraries uses it for
    [np.argsort]. *)

Section StableSort.
Context {A : Type} (leb : A → A → bool).

Fixpoint insert_sorted (x : nat * A) (l : list (nat * A)) : list (nat * A) :=
  match l with
  | [] => [x]
  | y :: l' => if leb x.2 y.2 then x :: l else y :: insert_sorted x l'
  end.

Fixpoint insertion_sort (l : list (nat * A)) : list (nat * A) :=
  match l with
  | [] => []
  | x :: l' => insert_sorted x (insertion_sort l')
  end.

Definition enumerate (a : list A) : list (nat * A) := zip (seq 0 (length a)) a.

Definition stable_argsort (a : list A) : list nat :=
  (insertion_sort (enumerate a)).*1.

(** The order the sort puts indexed values in: by value, and by index among
    equal values. *)
Definition ranks_before (x y : nat * A) : Prop :=
  leb x.2 y.2 = true ∧ (leb y.2 x.2 = true → x.1 < y.1).

End StableSort.

(** ** Conversation records (src/services/chat_manager.py) *)

(** The free-form metadata of a message: a JSON value. *)
#[local] Unset Elimination Schemes.
Inductive json : Type :=
| JNull
| JBool (b : bool)
| JNumber (n : Z)
| JString (s : string)
| JArray (items : list json)
| JObject (fields : list (string * json)).
#[local] Set Elimination Schemes.

Record message : Type := Message {
  role : string;
  content : string;
  timestamp : string;
  metadata : json
}.

(** The value [history[pdf_name]]. *)
Record chat_data : Type := ChatData {
  messages : list message;
  created_at : string;
  updated_at : string
}.

(** ** The libraries the program calls *)

Class External : Type := {
  (** numpy's floats, by their order only; the similarity of two finite
      vectors is never NaN, so the order is total. *)
  float : Type;
  float_leb : float → float → bool;
  (** scikit-learn's [TfidfVectorizer(max_features=1000,
      stop_words='english', ngram_range=(1, 2))]: its analyzer (lower-casing,
      token pattern, stop words, one- and two-word terms), the choice of the
      vocabulary from the analyzed collection, the idf weights, and the
      weighting and normalisation of one row of counts. *)
  analyze : string → list string;
  select_features : list (list string) → list string;
  idf_weights : list string → list (list string) → list float;
  tfidf_row : list float → list nat → list float;
  (** scikit-learn's [cosine_similarity] of one row against one row. *)
  cosine : list float → list float → float;
  (** [np.argsort] with the default kind. *)
  argsort : list float → list nat;
  (** langchain's [RecursiveCharacterTextSplitter(chunk_size=CHUNK_SIZE,
      chunk_overlap=CHUNK_OVERLAP).split_text]. *)
  splitter : string → list string;
  (** Text extraction: PyPDF2 and python-docx on the bytes of a file, and
      the first of the encodings utf-8, utf-8-sig, latin-1, cp1252 that
      decodes them (latin-1 decodes everything). *)
  pdf_text : string → result string;
  docx_text : string → result string;
  decode_text : string → string;
  (** [RAGEngine._get_document_pages], which never raises: the page or
      section count of a staged file, by its name and bytes. *)
  document_pages : string → string → nat;
  (** [json.dumps(_, indent=2)]. *)
  json_dumps : chat_data → string
}.

(** What the libraries promise of these functions: the order of the floats
    is total; a weighted row has the length of the row of counts;
    [np.argsort] returns every index once, in ascending order of the values
    (and promises no order among equal values). *)
Class ExternalLaws `{External} : Prop := {
  float_leb_total : ∀ a b, float_leb a b = true ∨ float_leb b a = true;
  float_leb_trans : ∀ a b c,
    float_leb a b = true → float_leb b c = true → float_leb a c = true;
  tfidf_row_length : ∀ idf counts, length (tfidf_row idf counts) = length counts;
  argsort_Permutation : ∀ a, argsort a ≡ₚ seq 0 (length a);
  argsort_ascending : ∀ a p q i j x y,
    argsort a !! p = Some i → argsort a !! q = Some j →
    a !! i = Some x → a !! j = Some y →
    p < q → float_leb x y = true
}.

Section Engine.
Context `{External}.

Definition float_eqb (a b : float) : bool := float_leb a b && float_leb b a.

(** ** src/engine/lightweight_embeddings.py *)

(** The attributes of a fitted [TfidfVectorizer]. *)
Record TfidfVectorizer : Type := {
  vocabulary_ : list string;
  idf_ : list float
}.

(** The row of term counts of one analyzed document: one column per term of
    the vocabulary, in its order. *)
Definition count_row (vocabulary tokens : list string) : list nat :=
  (λ term, length (filter (λ t, t = term) tokens)) <$> vocabulary.

(** [TfidfVectorizer.fit]: raises on a collection without a single term. *)
Definition sk_fit (raw_documents : list string) : result TfidfVectorizer :=
  let docs := analyze <$> raw_documents in
  let vocabulary := select_features docs in
  if decide (vocabulary = []) then
    Raise (ValueError
      "empty vocabulary; perhaps the documents only contain stop words")
  else Return {| vocabulary_ := vocabulary; idf_ := idf_weights vocabulary docs |}.

(** [TfidfVectorizer.transform(raw_documents).toarray()] of a fitted
    vectorizer. *)
Definition sk_transform (v : TfidfVectorizer) (raw_documents : list string)
    : list (list float) :=
  (λ d, tfidf_row (idf_ v) (count_row (vocabulary_ v) (analyze d))) <$> raw_documents.

(** [vectorizer] is [None] as long as the scikit-learn object is not
    fitted. *)
Record LightweightEmbeddings : Type := {
  vectorizer : option TfidfVectorizer;
  is_fitted : bool
}.

(** [LightweightEmbeddings()] *)
Definition LightweightEmbeddings_init : LightweightEmbeddings :=
  {| vectorizer := None; is_fitted := false |}.

Definition vectorizer_transform (v : option TfidfVectorizer)
    (raw_documents : list string) : result (list (list float)) :=
  match v with
  | Some fitted => Return (sk_transform fitted raw_documents)
  | None => Raise (NotFittedError "The TF-IDF vectorizer is not fitted")
  end.

Definition embed_documents (texts : list string)
    : action LightweightEmbeddings (list (list float)) :=
  λ self,
    if negb (is_fitted self) then
      match sk_fit texts with
      | Return fitted =>
          (Return (sk_transform fitted texts),
           {| vectorizer := Some fitted; is_fitted := true |})
      | Raise e => (Raise e, self)
      end
    else (vectorizer_transform (vectorizer self) texts, self).

Definition embed_query (self : LightweightEmbeddings) (query : string)
    : result (list float) :=
  if negb (is_fitted self) then Raise (ValueError "Vectorizer not fitted yet")
  else
    vector ← vectorizer_transform (vectorizer self) [query];
    py_index vector 0.

(** A sequence of [embed_documents] calls on one instance: the results of
    the calls in order, and the instance after the last. *)
Fixpoint embed_documents_calls (calls : list (list string))
    (self : LightweightEmbeddings)
    : list (result (list (list float))) * LightweightEmbeddings :=
  match calls with
  | [] => ([], self)
  | texts :: calls' =>
      let '(r, self') := embed_documents texts self in
      let '(rs, self'') := embed_documents_calls calls' self' in
      (r :: rs, self'')
  end.

(** ** src/engine/vector_store.py: the index and its search *)

(** The dictionary [{"vectors": vectors, "texts": chunks}]. *)
Record vectorstore : Type := {
  vectors : list (list float);
  texts : list string
}.

(** [cosine_similarity([query_vector], vectors)[0]]: scikit-learn refuses an
    empty matrix, an empty row and rows of another length than the
    query's. *)
Definition cosine_similarity (query_vector : list float)
    (Y : list (list float)) : result (list float) :=
  if bool_decide (Y ≠ [] ∧ query_vector ≠ [] ∧
                  Forall (λ row, length row = length query_vector) Y)
  then Return (cosine query_vector <$> Y)
  else Raise (ValueError "Incompatible dimension for X and Y matrices").

(** [np.argsort(similarities)[::-1][:k]] *)
Definition top_indices (similarities : list float) (k : Z) : list nat :=
  py_slice_to k (reverse (argsort similarities)).

(** One turn of the loop of [search]: the pair [(doc, score)] for an index,
    [doc] standing for the object whose [page_content] is the chunk. *)
Definition search_hit (texts : list string) (similarities : list float)
    (idx : nat) : result (string * float) :=
  doc ← py_index texts idx;
  score ← py_index similarities idx;
  mret (doc, score).

Definition search (embeddings : LightweightEmbeddings) (query : string)
    (store : vectorstore) (k : Z) : result (list (string * float)) :=
  try_except
    (query_vector ← embed_query embeddings query;
     similarities ← cosine_similarity query_vector (vectors store);
     mapM (search_hit (texts store) similarities) (top_indices similarities k))
    (λ e, Raise (RuntimeError ("Failed to search vectorstore: " +:+ str e))).

(** ** The disk and the objects of one process *)

(** The content of a file of an index directory: a pickle of an index, or
    bytes [pickle.load] fails on. *)
Inductive index_file : Type :=
| Pickled (store : vectorstore)
| NotAPickle (bytes : string).

(** The content of the durable conversation file or of one of its copies:
    a JSON document holding a history, or bytes [json.load] fails on. *)
Inductive chat_file : Type :=
| JsonDoc (logs : gmap string chat_data)
| NotJson (bytes : string).

(** The state the engine works on.  On disk: the files of [PDF_UPLOAD_DIR]
    by name, the directories of [VECTOR_STORE_DIR] by document name with
    their files, the conversation file [data/chat_history.json] and the
    files pathlib's [with_suffix] derives from it ([.tmp], [.corrupted],
    [.backup_<stamp>] by stamp).  In memory: the embeddings and the last
    vectors and texts of the [DocumentVectorStore], and the history of the
    [ChatManager].  The disk has no faults of its own (a full disk, a
    missing permission); document names are single path components. *)
Record world : Type := World {
  uploads : gmap string string;
  indexes : gmap string (gmap string index_file);
  chat_history_json : option chat_file;
  chat_history_tmp : option chat_file;
  chat_history_corrupted : option chat_file;
  chat_history_backups : gmap string chat_file;
  embeddings : LightweightEmbeddings;
  last_vectors : option (list (list float));
  last_texts : option (list string);
  history : gmap string chat_data
}.

Definition set_uploads (f : gmap string string → gmap string string) (w : world) : world :=
  World (f (uploads w)) (indexes w) (chat_history_json w) (chat_history_tmp w)
    (chat_history_corrupted w) (chat_history_backups w) (embeddings w)
    (last_vectors w) (last_texts w) (history w).

Definition set_indexes
    (f : gmap string (gmap string index_file) → gmap string (gmap string index_file))
    (w : world) : world :=
  World (uploads w) (f (indexes w)) (chat_history_json w) (chat_history_tmp w)
    (chat_history_corrupted w) (chat_history_backups w) (embeddings w)
    (last_vectors w) (last_texts w) (history w).

Definition set_chat_history_json (c : option chat_file) (w : world) : world :=
  World (uploads w) (indexes w) c (chat_history_tmp w)
    (chat_history_corrupted w) (chat_history_backups w) (embeddings w)
    (last_vectors w) (last_texts w) (history w).

Definition set_chat_history_tmp (c : option chat_file) (w : world) : world :=
  World (uploads w) (indexes w) (chat_history_json w) c
    (chat_history_corrupted w) (chat_history_backups w) (embeddings w)
    (last_vectors w) (last_texts w) (history w).

Definition set_chat_history_corrupted (c : option chat_file) (w : world) : world :=
  World (uploads w) (indexes w) (chat_history_json w) (chat_history_tmp w)
    c (chat_history_backups w) (embeddings w)
    (last_vectors w) (last_texts w) (history w).

Definition set_chat_history_backups
    (f : gmap string chat_file → gmap string chat_file) (w : world) : world :=
  World (uploads w) (indexes w) (chat_history_json w) (chat_history_tmp w)
    (chat_history_corrupted w) (f (chat_history_backups w)) (embeddings w)
    (last_vectors w) (last_texts w) (history w).

Definition set_embeddings (e : LightweightEmbeddings) (w : world) : world :=
  World (uploads w) (indexes w) (chat_history_json w) (chat_history_tmp w)
    (chat_history_corrupted w) (chat_history_backups w) e
    (last_vectors w) (last_texts w) (history w).

Definition set_last (v : list (list float)) (t : list string) (w : world) : world :=
  World (uploads w) (indexes w) (chat_history_json w) (chat_history_tmp w)
    (chat_history_corrupted w) (chat_history_backups w) (embeddings w)
    (Some v) (Some t) (history w).

Definition set_history (f : gmap string chat_data → gmap string chat_data)
    (w : world) : world :=
  World (uploads w) (indexes w) (chat_history_json w) (chat_history_tmp w)
    (chat_history_corrupted w) (chat_history_backups w) (embeddings w)
    (last_vectors w) (last_texts w) (f (history w)).

(** src/core/config.py *)
Definition PDF_UPLOAD_DIR : string := "data/pdfs".
Definition VECTOR_STORE_DIR : string := "data/vectorstore".

(** ** src/engine/vector_store.py: persistence *)

Definition pickle_load (f : index_file) : result vectorstore :=
  match f with
  | Pickled store => Return store
  | NotAPickle _ => Raise (UnpicklingError "invalid load key")
  end.

(** [mkdir(parents=True, exist_ok=True)] keeps a directory that is there;
    [open(.., "wb")] with [pickle.dump] replaces the file. *)
Definition save_vectorstore (store : vectorstore) (doc_name : string)
    : action world unit :=
  try_except_action
    (modify (set_indexes (λ dirs,
       <[doc_name := <["vectors.pkl" := Pickled store]> (default ∅ (dirs !! doc_name))]> dirs)))
    (λ e, raise (RuntimeError ("Failed to save vectorstore: " +:+ str e))).

Definition load_vectorstore (doc_name : string) (w : world)
    : result (option vectorstore) :=
  try_except
    (match indexes w !! doc_name with
     | None => Return None
     | Some dir =>
         match dir !! "vectors.pkl" with
         | Some f => Some <$> pickle_load f
         | None => Return None
         end
     end)
    (λ e, Return None).

(** ** src/engine/vector_store.py: extraction, chunks and embeddings *)

(** The last position of [c] in [l], counted from [i]. *)
Fixpoint rfind_from (c : ascii) (l : list ascii) (i : nat) : option nat :=
  match l with
  | [] => None
  | x :: l' =>
      match rfind_from c l' (S i) with
      | Some j => Some j
      | None => if Ascii.eqb x c then Some i else None
      end
  end.

(** [s.rfind(c)], [None] standing for -1. *)
Definition rfind (c : ascii) (l : list ascii) : option nat := rfind_from c l 0.

(** [Path(name).suffix] and [Path(name).stem] of a single component: the
    last dot counts when it is neither the first nor the last character. *)
Definition suffix_at (name : string) : option nat :=
  match rfind "." (chars name) with
  | Some i => if bool_decide (0 < i < String.length name - 1) then Some i else None
  | None => None
  end.

Definition path_suffix (name : string) : string :=
  match suffix_at name with
  | Some i => of_chars (drop i (chars name))
  | None => ""
  end.

Definition path_stem (name : string) : string :=
  match suffix_at name with
  | Some i => of_chars (take i (chars name))
  | None => name
  end.

(** [Path(PDF_UPLOAD_DIR) / name] is the upload directory itself for the
    names pathlib drops. *)
Definition names_upload_dir (name : string) : bool :=
  bool_decide (name = "" ∨ name = ".").

Definition path_name (name : string) : string :=
  if names_upload_dir name then "" else name.

Definition read_upload (name : string) (w : world) : result string :=
  if names_upload_dir name then Raise (IsADirectoryError PDF_UPLOAD_DIR)
  else match uploads w !! name with
       | Some bytes => Return bytes
       | None => Raise (FileNotFoundError ("No such file or directory: " +:+ name))
       end.

Definition _load_pdf (name : string) (w : world) : result string :=
  bytes ← read_upload name w;
  text ← pdf_text bytes;
  if is_blank text then Raise (ValueError "No text found in PDF") else mret text.

Definition _load_text (name : string) (w : world) : result string :=
  bytes ← read_upload name w;
  let text := decode_text bytes in
  if is_blank text then Raise (ValueError "No text found in file") else mret text.

Definition _load_docx (name : string) (w : world) : result string :=
  bytes ← read_upload name w;
  text ← docx_text bytes;
  if is_blank text then Raise (ValueError "No text found in DOCX file") else mret text.

(** [load_document(str(doc_path))] for the file [name] of the upload
    directory. *)
Definition load_document (name : string) (w : world) : result string :=
  try_except
    (let file_extension := lower (path_suffix (path_name name)) in
     if bool_decide (file_extension = ".pdf") then _load_pdf name w
     else if bool_decide (file_extension ∈ [".txt"; ".md"]) then _load_text name w
     else if bool_decide (file_extension = ".docx") then _load_docx name w
     else Raise (ValueError ("Unsupported file format: " +:+ file_extension)))
    (λ e, Raise (RuntimeError
       ("Failed to load document " +:+ PDF_UPLOAD_DIR +:+ "/" +:+ name +:+ ": " +:+ str e))).

Definition split_text (text : string) : result (list string) :=
  try_except
    (let chunks := splitter text in
     if bool_decide (chunks = []) then Raise (ValueError "No chunks created from text")
     else Return chunks)
    (λ e, Raise (RuntimeError ("Failed to split text: " +:+ str e))).

Definition create_embeddings (chunks : list string) : action world vectorstore :=
  try_except_action
    (λ w,
       match embed_documents chunks (embeddings w) with
       | (Return vectors, e') =>
           (Return {| vectors := vectors; texts := chunks |},
            set_last vectors chunks (set_embeddings e' w))
       | (Raise e, e') => (Raise e, set_embeddings e' w)
       end)
    (λ e, raise (RuntimeError ("Failed to create embeddings: " +:+ str e))).

(** ** src/utils/utils.py *)

(** [os.path.splitext]: the extension starts at the last dot of the last
    component, unless only dots stand before it there. *)
Definition splitext (p : string) : string * string :=
  let l := chars p in
  match rfind "." l with
  | None => (p, "")
  | Some dot =>
      let start := match rfind "/" l with Some sep => S sep | None => 0 end in
      if bool_decide (start ≤ dot)%nat &&
         existsb (λ c, negb (Ascii.eqb c ".")) (take (dot - start) (drop start l))
      then (of_chars (take dot l), of_chars (drop dot l))
      else (p, "")
  end.

(** [re.sub(r'\s+', ' ', _)]: [after_space] says that the character before
    was white space. *)
Fixpoint collapse_spaces (after_space : bool) (l : list ascii) : list ascii :=
  match l with
  | [] => []
  | c :: l' =>
      if is_space c then
        if after_space then collapse_spaces true l'
        else " "%char :: collapse_spaces true l'
      else c :: collapse_spaces false l'
  end.

(** The body of [sanitize_filename]; no step of it raises on a string, so
    its [except] branch is never taken. *)
Definition sanitize_filename (filename : string) : string :=
  let '(name, ext) := splitext filename in
  let sanitized :=
    filter (λ c, is_alnum c || is_space c || Ascii.eqb c "-" || Ascii.eqb c "_" = true)
           (chars name) in
  let sanitized := strip_chars (collapse_spaces false sanitized) in
  let sanitized := (λ c, if Ascii.eqb c " " then "_"%char else c) <$> sanitized in
  let sanitized := take 100 sanitized in
  of_chars sanitized +:+ ext.

(** The characters [sanitize_filename] leaves in the stem of a name. *)
Definition stem_char (c : ascii) : bool :=
  is_alnum c || Ascii.eqb c "-" || Ascii.eqb c "_".

(** The names of documents: the stem of a sanitized file name that has
    one, a string of letters, digits, hyphens and underscores that is not
    empty.  [process_document] gives every document it ingests such a
    name. *)
Definition document_name (name : string) : Prop :=
  name ≠ "" ∧ Forall (λ c, stem_char c = true) (chars name).

(** ** src/services/chat_manager.py *)

Definition json_load (f : chat_file) : result (gmap string chat_data) :=
  match f with
  | JsonDoc logs => Return logs
  | NotJson _ => Raise (JSONDecodeError "Expecting value")
  end.

(** [shutil.copy2(storage_path, storage_path.with_suffix('.corrupted'))] *)
Definition copy_to_corrupted : action world unit :=
  λ w, (Return tt, set_chat_history_corrupted (chat_history_json w) w).

Definition _load_history : action world unit :=
  try_except_action
    (λ w,
       match chat_history_json w with
       | Some f =>
           match json_load f with
           | Return logs => (Return tt, set_history (λ _, logs) w)
           | Raise e => (Raise e, w)
           end
       | None => (Return tt, set_history (λ _, ∅) w)
       end)
    (λ e,
       modify (set_history (λ _, ∅));;
       w ← get;
       if bool_decide (is_Some (chat_history_json w)) then copy_to_corrupted
       else mret tt).

(** [ChatManager(storage_path)]: the directory of the file is made when it
    is missing, which leaves the files of the store as they are. *)
Definition ChatManager_init : action world unit :=
  modify (set_history (λ _, ∅));;
  _load_history.

(** Writes the history to the [.tmp] file and moves that file over the
    durable one. *)
Definition _save : action world unit :=
  try_except_action
    (modify (λ w, set_chat_history_tmp (Some (JsonDoc (history w))) w);;
     modify (λ w, set_chat_history_tmp None (set_chat_history_json (chat_history_tmp w) w)))
    (λ e,
       w ← get;
       (if bool_decide (is_Some (chat_history_tmp w))
        then modify (set_chat_history_tmp None) else mret tt);;
       raise (RuntimeError ("Failed to save chat history: " +:+ str e))).

(** [stamp] is [datetime.now().strftime("%Y%m%d_%H%M%S")]. *)
Definition _create_backup (stamp : string) : action world unit :=
  try_except_action
    (λ w,
       match chat_history_json w with
       | Some f => (Return tt, set_chat_history_backups (λ b, <[stamp := f]> b) w)
       | None => (Return tt, w)
       end)
    (λ e, mret tt).

(** The truth value Python gives a JSON value: [None], [False], zero and
    the empty string, list and dictionary are false. *)
Definition truthy (v : json) : bool :=
  match v with
  | JNull => false
  | JBool b => b
  | JNumber n => negb (Z.eqb n 0)
  | JString s => negb (String.eqb s "")
  | JArray items => negb (bool_decide (length items = 0))
  | JObject fields => negb (bool_decide (length fields = 0))
  end.

(** [metadata or {}] *)
Definition metadata_or_empty (metadata : option json) : json :=
  match metadata with
  | Some v => if truthy v then v else JObject []
  | None => JObject []
  end.

(** [now] is [datetime.now().isoformat()]. *)
Definition add_message (pdf_name role content : string) (metadata : option json)
    (now : string) : action world unit :=
  try_except_action
    (modify (set_history (λ h,
       let h :=
         match h !! pdf_name with
         | Some _ => h
         | None => <[pdf_name := ChatData [] now now]> h
         end in
       let message := Message role content now (metadata_or_empty metadata) in
       alter (λ d, ChatData (messages d ++ [message]) (created_at d) now) pdf_name h));;
     _save)
    (λ e, raise (RuntimeError ("Failed to add message: " +:+ str e))).

Definition clear_history (pdf_name : option string) (stamp : string)
    : action world unit :=
  try_except_action
    (_create_backup stamp;;
     modify (set_history (λ h,
       match pdf_name with
       | None => ∅
       | Some name => delete name h
       end));;
     _save)
    (λ e, raise (RuntimeError ("Failed to clear history: " +:+ str e))).

(** The double quote character. *)
Definition dquote : string := String (ascii_of_nat 34) EmptyString.

(** [str.replace] of every double quote by two of them. *)
Fixpoint double_quotes (s : string) : string :=
  match s with
  | EmptyString => EmptyString
  | String c s' =>
      if Ascii.eqb c (ascii_of_nat 34) then dquote +:+ dquote +:+ double_quotes s'
      else String c (double_quotes s')
  end.

Definition csv_line (msg : message) : string :=
  dquote +:+ role msg +:+ dquote +:+ "," +:+
  dquote +:+ double_quotes (content msg) +:+ dquote +:+ "," +:+
  dquote +:+ timestamp msg +:+ dquote.

(** The line feed, and [sep.join(lines)]. *)
Definition newline : string := String (ascii_of_nat 10) EmptyString.

Fixpoint join (sep : string) (lines : list string) : string :=
  match lines with
  | [] => ""
  | [line] => line
  | line :: lines' => line +:+ sep +:+ join sep lines'
  end.

Definition export_chat (pdf_name format : string) (w : world) : result string :=
  try_except
    (match history w !! pdf_name with
     | None => Return "No chat history found"
     | Some chat_data =>
         if bool_decide (lower format = "json") then Return (json_dumps chat_data)
         else if bool_decide (lower format = "csv") then
           Return (join newline ("Role,Content,Timestamp" :: (csv_line <$> messages chat_data)))
         else Raise (ValueError ("Unsupported format: " +:+ format))
     end)
    (λ e, Return ("Export error: " +:+ str e)).

(** ** src/engine/rag_engine.py *)

(** The handler the engine is built with, by the reply of [summarize_pdf]
    to one call.  The reply comes from a service: calls that may be
    answered differently on the same text are calls of different handler
    values. *)
Record LLMHandler : Type := {
  summarize_pdf : string → result string
}.

(** The dictionary [process_document] returns: status ["success"] with the
    summary, the page count, the document name and the number of chunks, or
    status ["error"] with the message (and no summary, page count 0). *)
Inductive processing_result : Type :=
| Success (summary : string) (page_count : nat) (pdf_name : string) (chunks_created : nat)
| Error (error : string).

(** [with open(doc_path, 'wb') as f: f.write(file.read())] *)
Definition write_upload (name bytes : string) : action world unit :=
  if names_upload_dir name then raise (IsADirectoryError PDF_UPLOAD_DIR)
  else modify (set_uploads (λ files, <[name := bytes]> files)).

(** [doc_path.exists()] *)
Definition upload_exists (name : string) (w : world) : bool :=
  names_upload_dir name || bool_decide (is_Some (uploads w !! name)).

(** [doc_path.unlink()] of a path that exists. *)
Definition unlink_upload (name : string) : action world unit :=
  if names_upload_dir name then raise (IsADirectoryError PDF_UPLOAD_DIR)
  else modify (set_uploads (λ files, delete name files)).

Definition process_document (llm_handler : LLMHandler) (file filename : string)
    : action world processing_result :=
  let safe_filename := sanitize_filename filename in
  let doc_name := path_stem (path_name safe_filename) in
  try_except_action
    (write_upload safe_filename file;;
     w ← get;
     text ← lift (load_document safe_filename w);
     let page_count := document_pages safe_filename file in
     chunks ← lift (split_text text);
     vectorstore ← create_embeddings chunks;
     save_vectorstore vectorstore doc_name;;
     summary ← lift (summarize_pdf llm_handler text);
     mret (Success summary page_count doc_name (length chunks)))
    (λ e,
       w ← get;
       (if upload_exists safe_filename w then unlink_upload safe_filename
        else mret tt);;
       mret (Error (str e))).

(** [glob(f"{pdf_name}.*")] on the upload directory for a [document_name]:
    such a name holds none of the pattern characters of glob, so the
    pattern matches the files whose name starts with the name and a dot.
    For other strings glob reads the pattern characters, and raises on
    some: nothing is stated of them. *)
Definition glob_matches (pdf_name file_name : string) : bool :=
  String.prefix (pdf_name +:+ ".") file_name.

(** [delete_pdf] for a [document_name]: the name is then a single path
    component under the index directory, and no step of the body raises,
    so the [except] branch and its [False] are not reached.  Every
    property of [delete_pdf] is stated for such names. *)
Definition delete_pdf (pdf_name stamp : string) : action world bool :=
  try_except_action
    (modify (set_uploads (filter (λ entry, glob_matches pdf_name entry.1 = false)));;
     w ← get;
     (if bool_decide (is_Some (indexes w !! pdf_name))
      then modify (set_indexes (delete pdf_name)) else mret tt);;
     clear_history (Some pdf_name) stamp;;
     mret true)
    (λ e, mret false).

End Engine.

(** ** Notions the properties are stated with *)

Section Notions.
Context `{External}.

(** Scores from the highest to the lowest. *)
Definition non_increasing (scores : list float) : Prop :=
  StronglySorted (λ a b, float_leb b a = true) scores.

(** An order of the indices of [a] that keeps equal values in the order of
    their indices. *)
Definition preserves_ties (a : list float) (order : list nat) : Prop :=
  ∀ p q i j x y,
    order !! p = Some i → order !! q = Some j →
    a !! i = Some x → a !! j = Some y →
    float_eqb x y = true →
    p < q → i < j.

(** What [cosine_similarity] accepts: a matrix with a row at least, whose
    rows have the length of the query vector, which is not empty. *)
Definition compatible (query_vector : list float) (store : vectorstore) : Prop :=
  vectors store ≠ [] ∧ query_vector ≠ [] ∧
  Forall (λ row, length row = length query_vector) (vectors store).

(** An instance as [embed_documents] leaves it: fitted exactly when it holds
    a vocabulary, which then has a term. *)
Definition embeddings_ok (self : LightweightEmbeddings) : Prop :=
  match vectorizer self with
  | Some fitted => is_fitted self = true ∧ vocabulary_ fitted ≠ []
  | None => is_fitted self = false
  end.

(** The world after [clear_history]: the backup, the log removed from
    memory, the durable file written from memory. *)
Definition cleared (pdf_name : option string) (stamp : string) (w : world) : world :=
  let logs := match pdf_name with
              | Some name => delete name (history w)
              | None => ∅
              end in
  World (uploads w) (indexes w) (Some (JsonDoc logs)) None (chat_history_corrupted w)
    (match chat_history_json w with
     | Some f => <[stamp := f]> (chat_history_backups w)
     | None => chat_history_backups w
     end)
    (embeddings w) (last_vectors w) (last_texts w) logs.


(** The files of the upload directory [delete_pdf] keeps. *)
Definition kept_uploads (pdf_name : string) (files : gmap string string)
    : gmap string string :=
  filter (λ entry, glob_matches pdf_name entry.1 = false) files.

End Notions.

(** ** More of src/services/chat_manager.py *)

Section Conversation.
Context `{External}.

(** [l[-limit:]] for a positive [limit]: the last [limit] entries, all of
    them when there are fewer. *)
Definition py_slice_last {A} (limit : Z) (l : list A) : list A :=
  drop (length l - Z.to_nat limit) l.

Definition get_chat_history (pdf_name : string) (limit : Z) (w : world)
    : result (list message) :=
  try_except
    (match history w !! pdf_name with
     | None => Return []
     | Some chat_data =>
         Return (if (0 <? limit)%Z then py_slice_last limit (messages chat_data)
                 else messages chat_data)
     end)
    (λ e, Return []).

(** [list(self.history.keys())]: the documents with a log.  The source
    lists them in the order of their first message; the map keeps no such
    order, so only membership in this list is meaningful. *)
Definition get_all_pdfs (w : world) : list string :=
  (map_to_list (history w)).*1.

(** The dictionary [get_statistics] returns. *)
Record statistics : Type := {
  total_messages : nat;
  first_chat : option string;
  last_chat : option string
}.

Definition get_statistics (pdf_name : string) (w : world) : result statistics :=
  try_except
    (match history w !! pdf_name with
     | None => Return {| total_messages := 0; first_chat := None; last_chat := None |}
     | Some chat_data =>
         Return {| total_messages := length (messages chat_data);
                   first_chat := Some (created_at chat_data);
                   last_chat := Some (updated_at chat_data) |}
     end)
    (λ e, Return {| total_messages := 0; first_chat := None; last_chat := None |}).

End Conversation.

(** ** More of src/engine/rag_engine.py *)

Section Query.
Context `{External}.

(** src/core/config.py *)
Definition TOP_K_RESULTS : Z := 4.

(** [vectorstore_path.exists() and any(vectorstore_path.iterdir())] *)
Definition _validate_vectorstore (pdf_name : string) (w : world) : bool :=
  match indexes w !! pdf_name with
  | Some dir => bool_decide (dir ≠ ∅)
  | None => false
  end.

(** One part of the context: the number of the hit, from 1, and its
    chunk. *)
Definition context_part (i : nat) (hit : string * float) : string :=
  "Context " +:+ pretty i +:+ ":" +:+ newline +:+ hit.1.

Definition _prepare_context (search_results : list (string * float)) : string :=
  if bool_decide (search_results = []) then "No relevant context found."
  else join (newline +:+ newline +:+ "---" +:+ newline +:+ newline)
         (imap (λ i hit, context_part (S i) hit) search_results).

(** The dictionary [generate_answer] of the handler returns. *)
Record llm_response : Type := {
  response_answer : string;
  response_sources : list string;
  response_confidence : string
}.

(** The handler the engine is built with, by its other method. *)
Record AnswerHandler : Type := {
  generate_answer : string → string → result llm_response
}.

(** The dictionary [query] returns. *)
Record query_result : Type := {
  answer : string;
  sources : list string;
  context_used : string;
  confidence : string
}.

(** The result of a query that did not reach the handler. *)
Definition no_answer (text : string) : query_result :=
  {| answer := text; sources := []; context_used := ""; confidence := "low" |}.

(** [now_user] and [now_assistant] are the times the two [add_message]
    calls read. *)
Definition query (llm_handler : AnswerHandler) (pdf_name question : string)
    (now_user now_assistant : string) : action world query_result :=
  try_except_action
    (w ← get;
     if negb (_validate_vectorstore pdf_name w) then
       mret (no_answer "PDF not found or not processed yet.")
     else
       loaded ← lift (load_vectorstore pdf_name w);
       match loaded with
       | None => mret (no_answer "Failed to load PDF data.")
       | Some vectorstore =>
           search_results ←
             lift (search (embeddings w) question vectorstore TOP_K_RESULTS);
           let context := _prepare_context search_results in
           response ← lift (generate_answer llm_handler question context);
           add_message pdf_name "user" question None now_user;;
           add_message pdf_name "assistant" (response_answer response)
             (Some (JObject
                [("sources", JArray (JString <$> response_sources response));
                 ("confidence", JString (response_confidence response))]))
             now_assistant;;
           mret {| answer := response_answer response;
                   sources := response_sources response;
                   context_used := context;
                   confidence := response_confidence response |}
       end)
    (λ e, mret (no_answer ("Error processing question: " +:+ str e))).

End Query.

(** ** src/utils/utils.py and src/api/app.py: the checks before an upload *)

(** [s.endswith(suffix)] *)
Definition endswith (s suffix : string) : bool :=
  bool_decide (chars suffix `suffix_of` chars s).

(** [name.split('.')[-1]]: what follows the last dot, the whole name when
    it has no dot. *)
Definition last_part (name : string) : string :=
  match rfind "." (chars name) with
  | Some i => of_chars (drop (S i) (chars name))
  | None => name
  end.

Definition MAX_UPLOAD_SIZE : nat := 50 * 1024 * 1024.

(** [validate_pdf(file)] of utils.py, by [file.name] and [file.size]. *)
Definition validate_pdf (name : string) (size : nat) : bool * string :=
  if negb (endswith (lower name) ".pdf") then (false, "File must be a PDF")
  else if Nat.ltb MAX_UPLOAD_SIZE size then (false, "File size must be less than 50MB")
  else if Nat.eqb size 0 then (false, "File is empty")
  else (true, "Valid PDF file").

Definition allowed_types : list string := [".pdf"; ".txt"; ".md"; ".docx"].

(** [validate_document(file)] of app.py, which [handle_document_upload]
    calls before [process_document]. *)
Definition validate_document (name : string) (size : nat) : bool * string :=
  let file_ext := "." +:+ lower (last_part name) in
  if negb (bool_decide (file_ext ∈ allowed_types)) then
    (false, "File type " +:+ file_ext +:+ " not supported. Use: PDF, TXT, MD, DOCX")
  else if Nat.ltb MAX_UPLOAD_SIZE size then (false, "File size must be less than 50MB")
  else if Nat.eqb size 0 then (false, "File is empty")
  else (true, "Valid document file").

(** [len(text.split())]: the number of runs of characters that are not
    white space; [in_word] says that the character before was in one. *)
Fixpoint count_words (in_word : bool) (l : list ascii) : nat :=
  match l with
  | [] => 0
  | c :: l' =>
      if is_space c then count_words false l'
      else (if in_word then 0 else 1) + count_words true l'
  end.

(** [round(n / d)] of Python 3 on two counts: to the nearest integer, a
    half to the even one (the quotient of two integers below 2^53 is
    rounded correctly, so a half is seen as a half). *)
Definition py_round_ratio (n d : nat) : nat :=
  let q := n / d in
  let r := n mod d in
  if Nat.ltb (2 * r) d then q
  else if Nat.ltb d (2 * r) then S q
  else if Nat.even q then q else S q.

(** The body of [calculate_reading_time]; no step of it raises on a
    string, so its [except] branch is never taken. *)
Definition calculate_reading_time (text : string) : nat :=
  let word_count := count_words false (chars text) in
  Nat.max 1 (py_round_ratio word_count 250).

(** ** src/handlers/openrouter_handler.py and src/handlers/openai_handler.py *)

(** [OpenRouterLLMHandler.generate_answer]; the loop of
    [OpenAILLMHandler.generate_answer] is the same. *)
Module OpenRouterLLMHandler.
Section Handlers.

(** One exchange with the service, by the number of the attempt, the
    question and the context: the body of the [try] of [generate_answer]
    up to [answer_text] (the prompt made, the request sent, the answer
    checked and stripped).  [_parse_response] returns in every case, its
    own [except] branch included. *)
Variable request_answer : nat → string → string → result string.
Variable _parse_response : string → string → llm_response.

(** The dictionary of the last attempt that failed. *)
Definition error_response (e : exn) : llm_response :=
  {| response_answer := "Error generating response: " +:+ str e;
     response_sources := [];
     response_confidence := "low" |}.

(** The loop of [generate_answer] over the attempts that are left; [None]
    is what a Python function returns that falls off its end. *)
Fixpoint generate_answer_loop (attempts : list nat) (query context : string)
    : option llm_response :=
  match attempts with
  | [] => None
  | attempt :: later =>
      match request_answer attempt query context with
      | Return answer_text => Some (_parse_response answer_text context)
      | Raise e =>
          if Nat.eqb attempt 2 then Some (error_response e)
          else generate_answer_loop later query context
      end
  end.

(** [for attempt in range(3)] *)
Definition generate_answer (query context : string) : option llm_response :=
  generate_answer_loop (seq 0 3) query context.

End Handlers.
End OpenRouterLLMHandler.

(** ** Notions for the conversation store and the sessions *)

Section Sessions.
Context `{External}.

(** The history with one more message in the log of a document, as
    [add_message] leaves it: a new log starts at the time of the
    message. *)
Definition with_message (pdf_name : string) (msg : message)
    (h : gmap string chat_data) : gmap string chat_data :=
  <[pdf_name :=
      ChatData (from_option messages [] (h !! pdf_name) ++ [msg])
        (from_option created_at (timestamp msg) (h !! pdf_name))
        (timestamp msg)]> h.

(** The world with the history [h] in memory and written through [_save]. *)
Definition saved (h : gmap string chat_data) (w : world) : world :=
  World (uploads w) (indexes w) (Some (JsonDoc h)) None (chat_history_corrupted w)
    (chat_history_backups w) (embeddings w) (last_vectors w) (last_texts w) h.

(** The conversation file holds what the memory holds, and no [.tmp] file
    is left. *)
Definition in_sync (w : world) : Prop :=
  chat_history_json w = Some (JsonDoc (history w)) ∧ chat_history_tmp w = None.

(** A new process on the disk of [w]: src/api/app.py builds a new
    [DocumentVectorStore], whose embeddings are new, and a new
    [ChatManager], which loads the conversation file. *)
Definition new_session (w : world) : world :=
  (ChatManager_init
     (World (uploads w) (indexes w) (chat_history_json w) (chat_history_tmp w)
        (chat_history_corrupted w) (chat_history_backups w)
        LightweightEmbeddings_init None None ∅)).2.

End Sessions.

(** ** A reference instance of the libraries

    Rational numbers for floats, words of at least two characters and
    pairs of adjacent words for terms, plain term counts for weights, and
    for the similarity of two rows its signed square (which orders rows as
    their cosine does, and equals the cosine where that is 0, 1 or -1).
    The closed examples of this development are computed with it. *)

Module Reference.

Import QArith.

Definition stop_words : list string := ["the"; "and"; "of"; "is"; "in"; "to"].

Definition unigrams (text : string) : list string :=
  filter (λ w, (2 ≤ String.length w)%nat ∧ w ∉ stop_words) (String.words (lower text)).

Definition word_ngrams (text : string) : list string :=
  let tokens := unigrams text in
  tokens ++ zip_with (λ a b, a +:+ " " +:+ b) tokens (tail tokens).

Definition term_count (docs : list (list string)) (term : string) : nat :=
  length (filter (λ t, t = term) (concat docs)).

Definition max_features (docs : list (list string)) : list string :=
  let terms := merge_sort String.le (remove_dups (concat docs)) in
  let by_count :=
    @merge_sort _ (λ a b, (term_count docs b ≤ term_count docs a)%nat)
      (λ a b, decide (term_count docs b ≤ term_count docs a)%nat) terms in
  merge_sort String.le (take 1000 by_count).

Definition dot (u v : list Q) : Q := foldr Qplus 0 (zip_with Qmult u v).

Definition signed_square_cosine (u v : list Q) : Q :=
  let d := dot u v in
  let n := dot u u * dot v v in
  if Qeq_bool n 0 then 0
  else if Qle_bool 0 d then d * d / n else - (d * d / n).

Fixpoint split_lines (line : string) (s : string) : list string :=
  match s with
  | EmptyString => [String.rev line]
  | String c s' =>
      if Ascii.eqb c (ascii_of_nat 10) then String.rev line :: split_lines "" s'
      else split_lines (String c line) s'
  end.

Definition paragraphs (text : string) : list string :=
  filter (λ p, is_blank p = false) (split_lines "" text).

Definition after_magic (magic : string) (bytes : string) : result string :=
  if String.prefix magic bytes
  then Return (String.substring (String.length magic)
                 (String.length bytes - String.length magic) bytes)
  else Raise (ValueError ("not a " +:+ magic +:+ " file")).

Fixpoint dumps (j : json) : string :=
  match j with
  | JNull => "null"
  | JBool b => if b then "true" else "false"
  | JNumber n => pretty n
  | JString s => dquote +:+ s +:+ dquote
  | JArray items => "[" +:+ join ", " (dumps <$> items) +:+ "]"
  | JObject fields =>
      "{" +:+ join ", " ((λ kv, dquote +:+ kv.1 +:+ dquote +:+ ": " +:+ dumps kv.2) <$> fields)
      +:+ "}"
  end.

Definition dumps_message (m : message) : json :=
  JObject [("role", JString (role m)); ("content", JString (content m));
           ("timestamp", JString (timestamp m)); ("metadata", metadata m)].

Definition dumps_chat_data (d : chat_data) : string :=
  dumps (JObject [("messages", JArray (dumps_message <$> messages d));
                  ("created_at", JString (created_at d));
                  ("updated_at", JString (updated_at d))]).

#[export] Instance reference : External := {|
  float := Q;
  float_leb := Qle_bool;
  analyze := word_ngrams;
  select_features := max_features;
  idf_weights := λ vocabulary _, (λ _, 1%Q) <$> vocabulary;
  tfidf_row := λ idf counts,
    imap (λ i c, (inject_Z (Z.of_nat c) * default 1 (idf !! i))%Q) counts;
  cosine := signed_square_cosine;
  argsort := stable_argsort Qle_bool;
  splitter := paragraphs;
  pdf_text := after_magic "%PDF";
  docx_text := after_magic "PK";
  decode_text := λ bytes, bytes;
  document_pages := λ _ _, 1%nat;
  json_dumps := dumps_chat_data
|}.

End Reference.

(** ** Worked examples on the reference instance *)

Module Examples.
Import QArith Reference.

(** Two chunks about the cat.  In the exact arithmetic of the reference
    instance they are equally similar to the query [cat]. *)
Definition cats_chunks : list string := ["cat sat"; "cat ran"].

Definition cats_embeddings : LightweightEmbeddings :=
  (embed_documents cats_chunks LightweightEmbeddings_init).2.

Definition cats_store : vectorstore :=
  {| vectors := [[1; 0; 1; 0; 1]; [1; 1; 0; 1; 0]]%Q; texts := cats_chunks |}.

Definition cat_query_vector : list float := [1; 0; 0; 0; 0]%Q.

End Examples.

Module Worlds.
Import Reference Examples.

(** A new installation: empty directories, no conversation file, new
    objects. *)
Definition fresh : world :=
  World ∅ ∅ None None None ∅ LightweightEmbeddings_init None None ∅.

(** A handler whose summary is the first words of the text, and one whose
    service cannot be reached. *)
Definition steady_llm : LLMHandler :=
  {| summarize_pdf := λ text, Return (String.substring 0 20 text) |}.

Definition unreachable_llm : LLMHandler :=
  {| summarize_pdf := λ _, Raise (RuntimeError "Connection refused") |}.

(** The conversation file holds bytes that are not JSON. *)
Definition with_broken_log : world :=
  set_chat_history_json (Some (NotJson "{ messages: [")) fresh.

(** A question and its answer on the document [notes]. *)
Definition with_two_messages : world :=
  (add_message "notes" "assistant" "It sat, as the text says."
     (Some (JObject [("confidence", JString "high")])) "2024-05-01T10:00:01"
     (add_message "notes" "user" "Where did the cat sit?" None "2024-05-01T10:00:00"
        fresh).2).2.

(** The document [notes.txt] ingested once. *)
Definition with_notes : world :=
  (process_document steady_llm "cat sat" "notes.txt" fresh).2.

End Worlds.

Module Sessions.
Import Reference Examples Worlds.

(** A handler that answers with the context it is given, and one whose
    service cannot be reached. *)
Definition quoting_llm : AnswerHandler :=
  {| generate_answer := λ question context,
       Return {| response_answer := context;
                 response_sources := ["Context 1"];
                 response_confidence := "high" |} |}.

Definition silent_llm : AnswerHandler :=
  {| generate_answer := λ _ _, Raise (RuntimeError "Connection refused") |}.

(** The vectorizer fitted on the two chunks about the cat, and the chunks
    of a document that shares no term with them: embedded in the same
    session they both get the vector of zeros, and so the same similarity
    to every query in every arithmetic. *)
Definition cats_vectorizer : TfidfVectorizer :=
  default {| vocabulary_ := []; idf_ := [] |} (vectorizer cats_embeddings).

Definition pets_chunks : list string := ["dog barked"; "bird flew"].

Definition pets_store : vectorstore :=
  {| vectors := sk_transform cats_vectorizer pets_chunks; texts := pets_chunks |}.

(** The session after [notes.txt] was deleted again. *)
Definition without_notes : world :=
  (delete_pdf "notes" "20240501_100000" with_notes).2.

End Sessions.

(** * Properties *)

(** ** Results and Python sequences *)

Section Results.
Context {A B : Type}.

Lemma mapM_Return (f : A → result B) (l : list A) (r : list B) :
  mapM f l = Return r ↔ Forall2 (λ x y, f x = Return y) l r.
Proof.
  revert r. induction l as [|x l IH]; intros r; simpl.
  - split.
    + intros [= <-]. constructor.
    + intros Hnil. apply Forall2_nil_inv_l in Hnil as ->. reflexivity.
  - unfold mbind, result_bind, mret, result_ret.
    destruct (f x) as [y|e] eqn:Hfx.
    + destruct (mapM f l) as [ys|e] eqn:Hrest.
      * split.
        -- intros [= <-]. constructor; [exact Hfx | by apply IH].
        -- intros Hall. apply Forall2_cons_inv_l in Hall as (y' & ys' & Hy & Hys & ->).
           apply IH in Hys. congruence.
      * split; [discriminate|].
        intros Hall. apply Forall2_cons_inv_l in Hall as (y' & ys' & Hy & Hys & ->).
        apply IH in Hys. discriminate.
    + split; [discriminate|].
      intros Hall. apply Forall2_cons_inv_l in Hall as (y' & ys' & Hy & Hys & ->).
      congruence.
Qed.

Lemma py_index_Return (l : list A) (idx : nat) (x : A) :
  py_index l idx = Return x ↔ l !! idx = Some x.
Proof. unfold py_index. destruct (l !! idx); split; congruence. Qed.

Lemma py_slice_to_take (k : Z) (l : list A) :
  ∃ n, py_slice_to k l = take n l.
Proof. unfold py_slice_to. destruct (0 <=? k)%Z; eexists; reflexivity. Qed.

Lemma py_slice_to_all (k : Z) (l : list A) :
  (Z.of_nat (length l) ≤ k)%Z → py_slice_to k l = l.
Proof.
  intros Hk. unfold py_slice_to.
  destruct (Z.leb_spec 0 k) as [_|Hneg]; [|lia].
  apply take_ge. lia.
Qed.

Lemma try_except_Return (body : result A) (handler : exn → result A) (a : A) :
  (∀ e, ∃ e', handler e = Raise e') →
  try_except body handler = Return a → body = Return a.
Proof.
  intros Hraise. destruct body as [a'|e]; simpl; [congruence|].
  destruct (Hraise e) as [e' ->]. discriminate.
Qed.

(** A handler that returns makes the whole statement return, whatever the
    body raises. *)
Lemma try_except_catch_all (body : result A) (fallback : A) :
  ∃ a, try_except body (λ _, Return fallback) = Return a.
Proof. destruct body as [a|e]; simpl; eauto. Qed.

End Results.

(** ** The embeddings *)

Section EmbeddingsFacts.
Context `{External} `{!ExternalLaws}.

(** A term outside the vocabulary has no column: it does not count. *)
Lemma count_row_in_vocabulary (vocabulary tokens : list string) :
  count_row vocabulary (filter (λ t, t ∈ vocabulary) tokens) = count_row vocabulary tokens.
Proof.
  unfold count_row. apply Forall_fmap_ext_1, Forall_forall.
  intros term Hterm. f_equal.
  induction tokens as [|t tokens IH]; [reflexivity|].
  rewrite !filter_cons.
  destruct (decide (t ∈ vocabulary)) as [Hin|Hout].
  - rewrite !filter_cons. destruct (decide (t = term)); by rewrite IH.
  - destruct (decide (t = term)) as [->|]; [by destruct Hout | exact IH].
Qed.

Lemma sk_transform_projects (v : TfidfVectorizer) (raw_documents : list string) :
  sk_transform v raw_documents =
  (λ d, tfidf_row (idf_ v)
          (count_row (vocabulary_ v) (filter (λ t, t ∈ vocabulary_ v) (analyze d))))
    <$> raw_documents.
Proof.
  unfold sk_transform. apply list_fmap_ext. intros _ d _.
  by rewrite count_row_in_vocabulary.
Qed.

Lemma sk_transform_row_length (v : TfidfVectorizer) (raw_documents : list string) :
  Forall (λ row, length row = length (vocabulary_ v)) (sk_transform v raw_documents).
Proof.
  unfold sk_transform. apply Forall_fmap, Forall_forall. intros d _. simpl.
  rewrite tfidf_row_length. unfold count_row. by rewrite length_fmap.
Qed.

Lemma sk_transform_length (v : TfidfVectorizer) (raw_documents : list string) :
  length (sk_transform v raw_documents) = length raw_documents.
Proof. unfold sk_transform. by rewrite length_fmap. Qed.

(** Once fitted, a call leaves the instance as it is and transforms with
    the vocabulary it holds. *)
Lemma embed_documents_fitted (fitted : TfidfVectorizer) (texts : list string) :
  embed_documents texts {| vectorizer := Some fitted; is_fitted := true |} =
  (Return (sk_transform fitted texts), {| vectorizer := Some fitted; is_fitted := true |}).
Proof. reflexivity. Qed.

Lemma embed_documents_calls_fitted (fitted : TfidfVectorizer) (calls : list (list string)) :
  embed_documents_calls calls {| vectorizer := Some fitted; is_fitted := true |} =
  ((λ texts, Return (sk_transform fitted texts)) <$> calls,
   {| vectorizer := Some fitted; is_fitted := true |}).
Proof.
  induction calls as [|texts calls IH]; [reflexivity|].
  cbn [embed_documents_calls]. rewrite embed_documents_fitted, IH. reflexivity.
Qed.

Lemma embed_documents_calls_unfitted (failed : list (list string))
    (calls : list (list string)) :
  Forall (λ texts, ∃ e, sk_fit texts = Raise e) failed →
  embed_documents_calls (failed ++ calls) LightweightEmbeddings_init =
  ((((λ texts, match sk_fit texts with
               | Raise e => Raise e
               | Return fitted => Return (sk_transform fitted texts)
               end) <$> failed)
    ++ (embed_documents_calls calls LightweightEmbeddings_init).1)%list,
   (embed_documents_calls calls LightweightEmbeddings_init).2).
Proof.
  induction 1 as [|texts failed [e He] _ IH]; simpl.
  - by destruct (embed_documents_calls calls LightweightEmbeddings_init).
  - unfold embed_documents at 1. simpl. rewrite He, IH. reflexivity.
Qed.

End EmbeddingsFacts.

(** ** The insertion sort *)

Lemma StronglySorted_lookup {A} (R : relation A) (l : list A) :
  StronglySorted R l ↔
  ∀ i j x y, l !! i = Some x → l !! j = Some y → i < j → R x y.
Proof.
  induction l as [|a l IH].
  - split; [intros _ i j x y Hi; discriminate | constructor].
  - rewrite StronglySorted_cons, IH, Forall_lookup. split.
    + intros [Hhd Htl] [|i] [|j] x y Hi Hj Hlt; simplify_eq/=; try lia.
      * eapply Hhd, Hj.
      * eapply Htl; [exact Hi | exact Hj | lia].
    + intros Hall. split.
      * intros j y Hj. apply (Hall 0 (S j) a y); [done | done | lia].
      * intros i j x y Hi Hj Hlt. apply (Hall (S i) (S j) x y); [done | done | lia].
Qed.

Section StableSortFacts.
Context {A : Type} (leb : A → A → bool).

Hypothesis leb_total : ∀ x y, leb x y = true ∨ leb y x = true.
Hypothesis leb_trans : ∀ x y z, leb x y = true → leb y z = true → leb x z = true.

Lemma insert_sorted_Permutation (x : nat * A) (l : list (nat * A)) :
  insert_sorted leb x l ≡ₚ x :: l.
Proof.
  induction l as [|y l IH]; simpl; [reflexivity|].
  destruct (leb x.2 y.2); [reflexivity|].
  rewrite IH. apply Permutation_swap.
Qed.

Lemma insertion_sort_Permutation (l : list (nat * A)) : insertion_sort leb l ≡ₚ l.
Proof.
  induction l as [|x l IH]; simpl; [reflexivity|].
  by rewrite insert_sorted_Permutation, IH.
Qed.

Lemma insert_sorted_ranked (x : nat * A) (l : list (nat * A)) :
  Forall (λ y, x.1 < y.1) l →
  StronglySorted (ranks_before leb) l →
  StronglySorted (ranks_before leb) (insert_sorted leb x l).
Proof.
  intros Hidx Hsorted. induction Hsorted as [|y l Hsorted IH Hy]; simpl.
  - repeat constructor.
  - apply Forall_cons in Hidx as [Hxy Hidx].
    destruct (leb x.2 y.2) eqn:Hle.
    + constructor; [by constructor|].
      constructor; [split; [exact Hle | intros _; exact Hxy]|].
      rewrite Forall_forall in Hy, Hidx |- *. intros z Hz. split.
      * eapply leb_trans; [exact Hle | apply (Hy z Hz)].
      * intros _. by apply Hidx.
    + constructor; [by apply IH|].
      rewrite insert_sorted_Permutation. constructor; [|exact Hy].
      split; [|congruence].
      destruct (leb_total x.2 y.2); [congruence | done].
Qed.

Lemma insertion_sort_ranked (l : list (nat * A)) :
  StronglySorted (λ x y, x.1 < y.1) l →
  StronglySorted (ranks_before leb) (insertion_sort leb l).
Proof.
  induction 1 as [|x l Hsorted IH Hx]; simpl; [constructor|].
  apply insert_sorted_ranked; [|exact IH].
  by rewrite insertion_sort_Permutation.
Qed.

Lemma enumerate_lookup (a : list A) (i : nat) (x : nat * A) :
  enumerate a !! i = Some x ↔ x.1 = i ∧ a !! i = Some x.2.
Proof.
  unfold enumerate. rewrite lookup_zip_with_Some. split.
  - intros (n & v & -> & Hn & Hv). apply lookup_seq in Hn as [-> _]. done.
  - intros [Hi Hv]. exists x.1, x.2. split; [by destruct x|].
    split; [|exact Hv]. apply lookup_seq. split; [done|].
    by apply lookup_lt_Some in Hv.
Qed.

Lemma enumerate_elem_of (a : list A) (x : nat * A) :
  x ∈ enumerate a ↔ a !! x.1 = Some x.2.
Proof.
  rewrite list_elem_of_lookup. split.
  - intros [i Hi]. apply enumerate_lookup in Hi as [<- Hv]. exact Hv.
  - intros Hv. exists x.1. by apply enumerate_lookup.
Qed.

Lemma enumerate_increasing (a : list A) :
  StronglySorted (λ x y, x.1 < y.1) (enumerate a).
Proof.
  apply StronglySorted_lookup. intros i j x y Hi Hj Hlt.
  apply enumerate_lookup in Hi as [-> _]. apply enumerate_lookup in Hj as [-> _].
  exact Hlt.
Qed.

(** The sort returns every index once. *)
Lemma stable_argsort_Permutation (a : list A) :
  stable_argsort leb a ≡ₚ seq 0 (length a).
Proof.
  unfold stable_argsort. rewrite insertion_sort_Permutation.
  unfold enumerate. rewrite fst_zip; [reflexivity|]. by rewrite length_seq.
Qed.

Lemma stable_argsort_lookup (a : list A) (p i : nat) (x : A) :
  stable_argsort leb a !! p = Some i →
  a !! i = Some x →
  insertion_sort leb (enumerate a) !! p = Some (i, x).
Proof.
  unfold stable_argsort. rewrite list_lookup_fmap. intros Hp Hx.
  destruct (insertion_sort leb (enumerate a) !! p) as [[i' x']|] eqn:Hpair;
    simplify_eq/=.
  apply list_elem_of_lookup_2 in Hpair.
  rewrite insertion_sort_Permutation in Hpair.
  apply enumerate_elem_of in Hpair. simpl in Hpair. congruence.
Qed.

(** The sort is ascending, and keeps equal values in the order of their
    indices. *)
Lemma stable_argsort_ranked (a : list A) (p q i j : nat) (x y : A) :
  stable_argsort leb a !! p = Some i →
  stable_argsort leb a !! q = Some j →
  a !! i = Some x →
  a !! j = Some y →
  p < q →
  leb x y = true ∧ (leb y x = true → i < j).
Proof.
  intros Hp Hq Hx Hy Hlt.
  pose proof (stable_argsort_lookup _ _ _ _ Hp Hx) as Hpx.
  pose proof (stable_argsort_lookup _ _ _ _ Hq Hy) as Hqy.
  pose proof (insertion_sort_ranked _ (enumerate_increasing a)) as Hsorted.
  rewrite StronglySorted_lookup in Hsorted.
  exact (Hsorted p q _ _ Hpx Hqy Hlt).
Qed.

End StableSortFacts.

(** ** The reference instance keeps the promises of the libraries *)

Section ReferenceLaws.
Import QArith Reference.
#[local] Close Scope Q_scope.

Lemma Qle_bool_total (a b : Q) : Qle_bool a b = true ∨ Qle_bool b a = true.
Proof.
  rewrite !Qle_bool_iff.
  destruct (Qlt_le_dec a b) as [Hlt|Hle]; [left; apply Qlt_le_weak, Hlt | right; exact Hle].
Qed.

Lemma Qle_bool_trans (a b c : Q) :
  Qle_bool a b = true → Qle_bool b c = true → Qle_bool a c = true.
Proof. rewrite !Qle_bool_iff. apply Qle_trans. Qed.

#[export] Instance reference_laws : ExternalLaws.
Proof.
  split.
  - exact Qle_bool_total.
  - exact Qle_bool_trans.
  - intros idf counts. apply length_imap.
  - exact (stable_argsort_Permutation Qle_bool).
  - intros a p q i j x y Hp Hq Hx Hy Hlt.
    exact (proj1 (stable_argsort_ranked Qle_bool Qle_bool_total Qle_bool_trans
                    a p q i j x y Hp Hq Hx Hy Hlt)).
Qed.

End ReferenceLaws.

(** ** The ranking of [search] *)

Section SearchFacts.
Context `{External} `{!ExternalLaws}.

(** What a position of [top_indices] is in the order of [argsort]. *)
Lemma top_indices_lookup (similarities : list float) (k : Z) (p idx : nat) :
  top_indices similarities k !! p = Some idx →
  p < length (argsort similarities) ∧
  argsort similarities !! (length (argsort similarities) - S p) = Some idx.
Proof.
  unfold top_indices.
  destruct (py_slice_to_take k (reverse (argsort similarities))) as [n ->].
  intros Hp. apply lookup_take_Some in Hp as [Hp _].
  apply reverse_lookup_Some in Hp as [Hp Hlt]. done.
Qed.

Lemma top_indices_in_range (similarities : list float) (k : Z) (idx : nat) :
  idx ∈ top_indices similarities k → idx < length similarities.
Proof.
  intros Hidx. apply list_elem_of_lookup in Hidx as [p Hp].
  apply top_indices_lookup in Hp as [_ Hp].
  apply list_elem_of_lookup_2 in Hp. rewrite argsort_Permutation in Hp.
  apply elem_of_seq in Hp. lia.
Qed.

(** Of two hits, the one that comes first has the score that is not
    lower. *)
Lemma top_indices_order (similarities : list float) (k : Z)
    (p1 p2 i j : nat) (s_i s_j : float) :
  top_indices similarities k !! p1 = Some i →
  top_indices similarities k !! p2 = Some j →
  similarities !! i = Some s_i →
  similarities !! j = Some s_j →
  p1 < p2 →
  float_leb s_j s_i = true.
Proof.
  intros Hp1 Hp2 Hi Hj Hlt.
  apply top_indices_lookup in Hp1 as [Hlen1 Hq1].
  apply top_indices_lookup in Hp2 as [Hlen2 Hq2].
  eapply (argsort_ascending similarities _ _ j i); [exact Hq2 | exact Hq1 | done | done | lia].
Qed.

(** Of two hits with equal scores, the one with the higher index comes
    first when [argsort] preserves ties. *)
Lemma top_indices_ties (similarities : list float) (k : Z)
    (p_i p_j i j : nat) (s_i s_j : float) :
  preserves_ties similarities (argsort similarities) →
  top_indices similarities k !! p_i = Some i →
  top_indices similarities k !! p_j = Some j →
  similarities !! i = Some s_i →
  similarities !! j = Some s_j →
  float_eqb s_i s_j = true →
  i < j → p_j < p_i.
Proof.
  intros Hties Hpi Hpj Hi Hj Heq Hlt.
  destruct (Nat.lt_trichotomy p_i p_j) as [Hp|[->|Hp]];
    [|simplify_eq; lia|exact Hp].
  apply top_indices_lookup in Hpi as [Hlen_i Hqi].
  apply top_indices_lookup in Hpj as [Hlen_j Hqj].
  assert (float_eqb s_j s_i = true) as Heq'.
  { unfold float_eqb in *. by rewrite andb_comm. }
  pose proof (Hties _ _ j i s_j s_i Hqj Hqi Hj Hi Heq') as Hback.
  lia.
Qed.

(** What a search that returns has computed. *)
Lemma search_Return (embeddings : LightweightEmbeddings) (query : string)
    (store : vectorstore) (k : Z) (results : list (string * float)) :
  search embeddings query store k = Return results →
  ∃ query_vector,
    embed_query embeddings query = Return query_vector ∧
    cosine_similarity query_vector (vectors store) =
      Return (cosine query_vector <$> vectors store) ∧
    Forall2 (λ idx hit,
               texts store !! idx = Some hit.1 ∧
               (cosine query_vector <$> vectors store) !! idx = Some hit.2)
      (top_indices (cosine query_vector <$> vectors store) k) results.
Proof.
  unfold search. intros Hs. apply try_except_Return in Hs; [|by eauto].
  destruct (embed_query embeddings query) as [q|] eqn:Hq; [|discriminate].
  exists q. split; [reflexivity|]. cbn in Hs.
  unfold cosine_similarity in *. case_bool_decide; [|discriminate].
  split; [reflexivity|]. cbn in Hs. apply mapM_Return in Hs.
  eapply Forall2_impl; [exact Hs|]. intros idx [doc score]. unfold search_hit.
  destruct (py_index (texts store) idx) as [d|] eqn:Hd; [|discriminate].
  destruct (py_index _ idx) as [s|] eqn:Hsc in |- *; [|discriminate].
  cbn. intros [= -> ->]. by rewrite <- !py_index_Return.
Qed.

Lemma search_scores_non_increasing_hits (similarities : list float) (k : Z)
    (texts : list string) (results : list (string * float)) :
  Forall2 (λ idx hit, texts !! idx = Some hit.1 ∧ similarities !! idx = Some hit.2)
    (top_indices similarities k) results →
  non_increasing results.*2.
Proof.
  intros Hall. apply StronglySorted_lookup. intros p1 p2 s1 s2 Hs1 Hs2 Hlt.
  rewrite list_lookup_fmap in Hs1, Hs2.
  destruct (results !! p1) as [hit1|] eqn:Hhit1; simplify_eq/=.
  destruct (results !! p2) as [hit2|] eqn:Hhit2; simplify_eq/=.
  destruct (Forall2_lookup_r _ _ _ _ _ Hall Hhit1) as (i & Hi & _ & Hsi).
  destruct (Forall2_lookup_r _ _ _ _ _ Hall Hhit2) as (j & Hj & _ & Hsj).
  exact (top_indices_order _ _ _ _ _ _ _ _ Hi Hj Hsi Hsj Hlt).
Qed.

(** With an index for every chunk, the hits of all indices are all the
    chunks with their scores. *)
Lemma all_hits (texts : list string) (similarities : list float)
    (indices : list nat) (results : list (string * float)) :
  length texts = length similarities →
  indices ≡ₚ seq 0 (length similarities) →
  Forall2 (λ idx hit, texts !! idx = Some hit.1 ∧ similarities !! idx = Some hit.2)
    indices results →
  results ≡ₚ zip texts similarities.
Proof.
  intros Hlen Hperm Hall.
  set (hit_of := λ idx : nat,
         (default "" (texts !! idx), default (cosine [] []) (similarities !! idx))).
  assert (results = hit_of <$> indices) as ->.
  { clear Hperm.
    induction Hall as [|idx [doc score] indices results [Hd Hs] _ IH]; [reflexivity|].
    simpl in *. rewrite IH. unfold hit_of at 2. by rewrite Hd, Hs. }
  rewrite Hperm.
  enough (hit_of <$> seq 0 (length similarities) = zip texts similarities) as -> by done.
  apply list_eq. intros i.
  rewrite list_lookup_fmap, lookup_zip_with.
  destruct (decide (i < length similarities)) as [Hi|Hi].
  - rewrite (proj2 (lookup_seq 0 _ i i)) by done. simpl. unfold hit_of.
    destruct (lookup_lt_is_Some_2 similarities i Hi) as [s ->].
    destruct (lookup_lt_is_Some_2 texts i ltac:(lia)) as [d ->]. reflexivity.
  - rewrite (lookup_ge_None_2 (seq _ _)) by (rewrite length_seq; lia).
    rewrite (lookup_ge_None_2 texts) by lia. reflexivity.
Qed.

End SearchFacts.

(** ** Specified properties of the embeddings and of the search *)

Section EngineClaims.
Context `{External} `{!ExternalLaws}.

(** A search on an index with a text for every vector, with a query vector
    the index is compatible with, returns. *)
Lemma search_returns (embeddings : LightweightEmbeddings) (query : string)
    (store : vectorstore) (k : Z) (query_vector : list float) :
  embed_query embeddings query = Return query_vector →
  length (texts store) = length (vectors store) →
  compatible query_vector store →
  ∃ results, search embeddings query store k = Return results.
Proof.
  intros Hq Hlen Hcompat. unfold search. rewrite Hq. cbn.
  unfold cosine_similarity. rewrite bool_decide_eq_true_2 by exact Hcompat. cbn.
  set (similarities := cosine query_vector <$> vectors store).
  assert (∃ results,
    Forall2 (λ idx hit, search_hit (texts store) similarities idx = Return hit)
      (top_indices similarities k) results) as [results Hres].
  { assert (Forall (λ idx, idx < length similarities) (top_indices similarities k)) as Hall.
    { apply Forall_forall. intros idx. apply top_indices_in_range. }
    induction Hall as [|idx indices Hidx _ [results IH]]; [by exists []|].
    destruct (lookup_lt_is_Some_2 similarities idx Hidx) as [s Hs].
    assert (idx < length (texts store)) as Hidx'.
    { rewrite Hlen. unfold similarities in Hidx. by rewrite length_fmap in Hidx. }
    destruct (lookup_lt_is_Some_2 (texts store) idx Hidx') as [d Hd].
    exists ((d, s) :: results). constructor; [|exact IH].
    unfold search_hit, py_index. by rewrite Hd, Hs. }
  exists results. apply mapM_Return in Hres. by rewrite Hres.
Qed.

(** C8: for every index with a text per vector, every query vector the index
    is compatible with and every [k], [search] returns its (chunk, score)
    pairs with the scores in non-increasing order: [k] of them for a [k]
    that is not negative and not above the number of stored chunks, and
    when [k] exceeds that number all the chunks, each with its similarity
    to the query. *)
Theorem search_scores_non_increasing (embeddings : LightweightEmbeddings)
    (query : string) (store : vectorstore) (k : Z) (query_vector : list float) :
  embed_query embeddings query = Return query_vector →
  length (texts store) = length (vectors store) →
  compatible query_vector store →
  ∃ results,
    search embeddings query store k = Return results ∧
    non_increasing results.*2 ∧
    ((0 ≤ k)%Z → length results = Z.to_nat k `min` length (texts store)) ∧
    ((Z.of_nat (length (texts store)) < k)%Z →
     results ≡ₚ zip (texts store) (cosine query_vector <$> vectors store)).
Proof.
  intros Hq Hlen Hcompat.
  destruct (search_returns _ _ _ k _ Hq Hlen Hcompat) as [results Hres].
  exists results. split; [exact Hres|].
  apply search_Return in Hres as (q & Hq' & _ & Hhits).
  assert (q = query_vector) as -> by congruence.
  split; [|split].
  - exact (search_scores_non_increasing_hits _ _ _ _ Hhits).
  - intros Hk. rewrite <- (Forall2_length _ _ _ Hhits).
    unfold top_indices, py_slice_to.
    destruct (Z.leb_spec 0 k) as [_|Hneg]; [|lia].
    rewrite length_take, length_reverse, argsort_Permutation, length_seq,
      length_fmap. lia.
  - intros Hk. eapply all_hits; [by rewrite length_fmap | | exact Hhits].
    unfold top_indices. rewrite py_slice_to_all.
    + by rewrite reverse_Permutation, argsort_Permutation.
    + rewrite length_reverse, argsort_Permutation, length_seq, length_fmap. lia.
Qed.

(** C1, as the code has it: for every index with a text per vector, every
    query vector the index is compatible with and every [k], [search]
    returns the hits of [top_indices], the reversed order of [argsort], in
    that order; and when [argsort] keeps equal values in the order of their
    indices (as numpy's sort of a small array does), of two stored chunks
    with equal similarity to the query that are both returned, the one with
    the HIGHER original insertion index comes first. *)
Theorem search_ties_higher_index_first (embeddings : LightweightEmbeddings)
    (query : string) (store : vectorstore) (k : Z) (query_vector : list float) :
  embed_query embeddings query = Return query_vector →
  length (texts store) = length (vectors store) →
  compatible query_vector store →
  let similarities := cosine query_vector <$> vectors store in
  let top := top_indices similarities k in
  preserves_ties similarities (argsort similarities) →
  ∃ results,
    search embeddings query store k = Return results ∧
    Forall2 (λ idx hit,
               texts store !! idx = Some hit.1 ∧ similarities !! idx = Some hit.2)
      top results ∧
    ∀ p_i p_j i j s_i s_j,
      top !! p_i = Some i → top !! p_j = Some j →
      similarities !! i = Some s_i → similarities !! j = Some s_j →
      float_eqb s_i s_j = true →
      i < j → p_j < p_i.
Proof.
  intros Hq Hlen Hcompat similarities top Hties.
  destruct (search_returns _ _ _ k _ Hq Hlen Hcompat) as [results Hres].
  exists results. split; [exact Hres|].
  apply search_Return in Hres as (q & Hq' & _ & Hhits).
  assert (q = query_vector) as -> by congruence.
  split; [exact Hhits|].
  intros p_i p_j i j s_i s_j. by apply top_indices_ties.
Qed.

(** C3, as the code has it: in every sequence of [embed_documents] calls on
    a new instance, the vocabulary is built exactly once, by the first call
    whose fit succeeds and from its collection (a call whose fit raises
    builds nothing and leaves the instance not fitted); every later call
    leaves the instance as it is and projects its input through that
    vocabulary: a row has one column per term of it, and terms absent from
    it are dropped. *)
Theorem vocabulary_built_by_first_successful_fit
    (failed : list (list string)) (texts : list string)
    (later : list (list string)) (fitted : TfidfVectorizer) :
  Forall (λ texts', ∃ e, sk_fit texts' = Raise e) failed →
  sk_fit texts = Return fitted →
  embed_documents_calls (failed ++ texts :: later)%list LightweightEmbeddings_init =
    ((((λ texts', match sk_fit texts' with
                 | Raise e => Raise e
                 | Return fitted' => Return (sk_transform fitted' texts')
                 end) <$> failed)
      ++ Return (sk_transform fitted texts)
         :: ((λ texts', Return (sk_transform fitted texts')) <$> later))%list,
     {| vectorizer := Some fitted; is_fitted := true |}) ∧
  (embed_documents_calls failed LightweightEmbeddings_init).2 = LightweightEmbeddings_init ∧
  ∀ texts',
    Forall (λ row, length row = length (vocabulary_ fitted)) (sk_transform fitted texts') ∧
    sk_transform fitted texts' =
      (λ d, tfidf_row (idf_ fitted)
              (count_row (vocabulary_ fitted)
                 (filter (λ t, t ∈ vocabulary_ fitted) (analyze d)))) <$> texts'.
Proof.
  intros Hfailed Hfit. split; [|split].
  - rewrite (embed_documents_calls_unfitted failed _ Hfailed).
    cbn [embed_documents_calls]. unfold embed_documents at 1 2. simpl.
    rewrite Hfit, embed_documents_calls_fitted. reflexivity.
  - pose proof (embed_documents_calls_unfitted failed [] Hfailed) as Hrun.
    rewrite app_nil_r in Hrun. by rewrite Hrun.
  - intros texts'. split; [apply sk_transform_row_length | apply sk_transform_projects].
Qed.

(** C7: [embed_query] on an instance no [embed_documents] call was made on
    fails with the error that says the vectorizer is not fitted (a
    [ValueError]; [search] hands it on as a [RuntimeError]).  The same holds
    as long as no call has fitted the vectorizer, and no longer once one
    has. *)
Theorem embed_query_before_fit_raises (query : string) (store : vectorstore) (k : Z) :
  embed_query LightweightEmbeddings_init query =
    Raise (ValueError "Vectorizer not fitted yet") ∧
  search LightweightEmbeddings_init query store k =
    Raise (RuntimeError "Failed to search vectorstore: Vectorizer not fitted yet") ∧
  (∀ calls,
     Forall (λ texts, ∃ e, sk_fit texts = Raise e) calls →
     embed_query (embed_documents_calls calls LightweightEmbeddings_init).2 query =
       Raise (ValueError "Vectorizer not fitted yet")) ∧
  (∀ texts fitted,
     sk_fit texts = Return fitted →
     embed_query (embed_documents texts LightweightEmbeddings_init).2 query =
       Return (tfidf_row (idf_ fitted) (count_row (vocabulary_ fitted) (analyze query)))).
Proof.
  split; [reflexivity|]. split; [reflexivity|]. split.
  - intros calls Hfailed.
    pose proof (embed_documents_calls_unfitted calls [] Hfailed) as Hrun.
    rewrite app_nil_r in Hrun. by rewrite Hrun.
  - intros texts fitted Hfit. unfold embed_documents. simpl. by rewrite Hfit.
Qed.

End EngineClaims.

(** ** The embeddings and the search on the reference instance *)

Section EngineExamples.
Import QArith Reference Examples Sessions.
#[local] Close Scope Q_scope.

Lemma cats_compatible : compatible cat_query_vector cats_store.
Proof.
  split; [discriminate|]. split; [discriminate|].
  repeat constructor.
Qed.

(** The search of C8 on the two chunks, with [k] above their number. *)
Lemma search_scores_non_increasing_cats :
  (embed_query cats_embeddings "cat" = Return cat_query_vector ∧
   length (texts cats_store) = length (vectors cats_store) ∧
   compatible cat_query_vector cats_store) ∧
  ∃ results,
    search cats_embeddings "cat" cats_store 5 = Return results ∧
    non_increasing results.*2 ∧
    ((0 ≤ 5)%Z → length results = Z.to_nat 5 `min` length (texts cats_store)) ∧
    ((Z.of_nat (length (texts cats_store)) < 5)%Z →
     results ≡ₚ zip (texts cats_store) (cosine cat_query_vector <$> vectors cats_store)).
Proof.
  split.
  - split; [reflexivity|]. split; [reflexivity | exact cats_compatible].
  - apply (search_scores_non_increasing cats_embeddings "cat" cats_store 5
             cat_query_vector); [reflexivity | reflexivity | exact cats_compatible].
Defined.

(** C1 as stated fails.  A document is embedded after the vocabulary was
    fitted on another one and shares no term with it: its two chunks both
    get the vector of zeros, so both have the similarity 0 to the query,
    and [search] returns the chunk of index 1 before the chunk of
    index 0. *)
Lemma search_returns_lower_index_last :
  embed_documents pets_chunks cats_embeddings =
    (Return (vectors pets_store), cats_embeddings) ∧
  vectors pets_store = [[0; 0; 0; 0; 0]; [0; 0; 0; 0; 0]]%Q ∧
  embed_query cats_embeddings "cat" = Return cat_query_vector ∧
  cosine cat_query_vector <$> vectors pets_store = [0; 0]%Q ∧
  texts pets_store = ["dog barked"; "bird flew"] ∧
  search cats_embeddings "cat" pets_store 2 =
    Return [("bird flew", 0); ("dog barked", 0)]%Q.
Proof. repeat split; reflexivity. Qed.

Lemma pets_compatible : compatible cat_query_vector pets_store.
Proof.
  split; [discriminate|]. split; [discriminate|].
  repeat constructor.
Qed.

(** The sort of the reference instance preserves ties. *)
Lemma reference_argsort_preserves_ties (a : list Q) :
  preserves_ties a (argsort a).
Proof.
  intros p q i j x y Hp Hq Hx Hy Heq Hlt.
  apply andb_true_iff in Heq as [_ Hyx].
  exact (proj2 (stable_argsort_ranked Qle_bool Qle_bool_total Qle_bool_trans
                  a p q i j x y Hp Hq Hx Hy Hlt) Hyx).
Qed.

(** The search of C1 on the two chunks with the vector of zeros. *)
Lemma search_ties_higher_index_first_pets :
  (embed_query cats_embeddings "cat" = Return cat_query_vector ∧
   length (texts pets_store) = length (vectors pets_store) ∧
   compatible cat_query_vector pets_store ∧
   preserves_ties (cosine cat_query_vector <$> vectors pets_store)
     (argsort (cosine cat_query_vector <$> vectors pets_store))) ∧
  let similarities := cosine cat_query_vector <$> vectors pets_store in
  let top := top_indices similarities 2 in
  ∃ results,
    search cats_embeddings "cat" pets_store 2 = Return results ∧
    Forall2 (λ idx hit,
               texts pets_store !! idx = Some hit.1 ∧ similarities !! idx = Some hit.2)
      top results ∧
    ∀ p_i p_j i j s_i s_j,
      top !! p_i = Some i → top !! p_j = Some j →
      similarities !! i = Some s_i → similarities !! j = Some s_j →
      float_eqb s_i s_j = true →
      i < j → p_j < p_i.
Proof.
  split.
  - split; [reflexivity|]. split; [reflexivity|].
    split; [exact pets_compatible | apply reference_argsort_preserves_ties].
  - apply (search_ties_higher_index_first cats_embeddings "cat" pets_store 2
             cat_query_vector);
      [reflexivity | reflexivity | exact pets_compatible
      | apply reference_argsort_preserves_ties].
Defined.

(** C3 as stated fails: the first call holds no term, its fit raises, and
    the vocabulary is built by the second call, from the second
    collection. *)
Lemma vocabulary_not_from_first_call :
  embed_documents_calls [["a"]; ["cat sat"]] LightweightEmbeddings_init =
    ([Raise (ValueError "empty vocabulary; perhaps the documents only contain stop words");
      Return [[1; 1; 1]]%Q],
     {| vectorizer := Some {| vocabulary_ := ["cat"; "cat sat"; "sat"]; idf_ := [1; 1; 1]%Q |};
        is_fitted := true |}) ∧
  sk_fit ["a"] =
    Raise (ValueError "empty vocabulary; perhaps the documents only contain stop words") ∧
  sk_fit ["cat sat"] =
    Return {| vocabulary_ := ["cat"; "cat sat"; "sat"]; idf_ := [1; 1; 1]%Q |}.
Proof. repeat split; reflexivity. Qed.

(** The calls of C3: one that fails to fit, one that fits, one after it
    with terms the vocabulary does not hold. *)
Lemma vocabulary_built_by_first_successful_fit_cats :
  let fitted := {| vocabulary_ := ["cat"; "cat sat"; "sat"]; idf_ := [1; 1; 1]%Q |} in
  (Forall (λ texts', ∃ e, sk_fit texts' = Raise e) [["a"]] ∧
   sk_fit ["cat sat"] = Return fitted) ∧
  embed_documents_calls ([["a"]] ++ ["cat sat"] :: [["dog sat"]])%list
      LightweightEmbeddings_init =
    ((((λ texts', match sk_fit texts' with
                 | Raise e => Raise e
                 | Return fitted' => Return (sk_transform fitted' texts')
                 end) <$> [["a"]])
      ++ Return (sk_transform fitted ["cat sat"])
         :: ((λ texts', Return (sk_transform fitted texts')) <$> [["dog sat"]]))%list,
     {| vectorizer := Some fitted; is_fitted := true |}) ∧
  (embed_documents_calls [["a"]] LightweightEmbeddings_init).2 = LightweightEmbeddings_init ∧
  ∀ texts',
    Forall (λ row, length row = length (vocabulary_ fitted)) (sk_transform fitted texts') ∧
    sk_transform fitted texts' =
      (λ d, tfidf_row (idf_ fitted)
              (count_row (vocabulary_ fitted)
                 (filter (λ t, t ∈ vocabulary_ fitted) (analyze d)))) <$> texts'.
Proof.
  assert (Forall (λ texts', ∃ e, sk_fit texts' = Raise e) [["a"]]) as Hfailed.
  { repeat constructor. eexists. reflexivity. }
  split.
  - split; [exact Hfailed | reflexivity].
  - apply (vocabulary_built_by_first_successful_fit [["a"]] ["cat sat"] [["dog sat"]]);
      [exact Hfailed | reflexivity].
Defined.

End EngineExamples.

(** ** The disk: indexes, conversation file, staged files *)

Section WorldFacts.
Context `{External} `{!ExternalLaws}.

Lemma save_vectorstore_run (store : vectorstore) (doc_name : string) (w : world) :
  save_vectorstore store doc_name w =
  (Return tt,
   set_indexes (λ dirs,
     <[doc_name := <["vectors.pkl" := Pickled store]> (default ∅ (dirs !! doc_name))]> dirs) w).
Proof. reflexivity. Qed.

(** What [load_vectorstore] returns, case by case. *)
Lemma load_vectorstore_run (doc_name : string) (w : world) :
  load_vectorstore doc_name w =
  Return (match indexes w !! doc_name with
          | Some dir =>
              match dir !! "vectors.pkl" with
              | Some (Pickled store) => Some store
              | _ => None
              end
          | None => None
          end).
Proof.
  unfold load_vectorstore.
  destruct (indexes w !! doc_name) as [dir|]; [|reflexivity].
  destruct (dir !! "vectors.pkl") as [[store|bytes]|]; reflexivity.
Qed.

Lemma _save_run (w : world) :
  _save w =
  (Return tt, set_chat_history_tmp None (set_chat_history_json (Some (JsonDoc (history w))) w)).
Proof. reflexivity. Qed.

Lemma _create_backup_run (stamp : string) (w : world) :
  _create_backup stamp w =
  (Return tt,
   match chat_history_json w with
   | Some f => set_chat_history_backups (λ b, <[stamp := f]> b) w
   | None => w
   end).
Proof. unfold _create_backup, try_except_action. by destruct (chat_history_json w). Qed.

Lemma clear_history_run (pdf_name : option string) (stamp : string) (w : world) :
  clear_history pdf_name stamp w = (Return tt, cleared pdf_name stamp w).
Proof.
  unfold clear_history, try_except_action, mbind, action_bind.
  rewrite _create_backup_run. unfold modify. rewrite _save_run.
  destruct w as [? ? [f|] ? ? ? ? ? ? ?]; reflexivity.
Qed.

Lemma delete_pdf_run (pdf_name stamp : string) (w : world) :
  delete_pdf pdf_name stamp w =
  (Return true,
   cleared (Some pdf_name) stamp
     (set_indexes (delete pdf_name) (set_uploads (kept_uploads pdf_name) w))).
Proof.
  unfold delete_pdf, try_except_action, mbind, action_bind, modify, get. simpl.
  case_bool_decide as Hdir.
  - rewrite clear_history_run. reflexivity.
  - simpl. rewrite clear_history_run. simpl. do 2 f_equal.
    unfold set_indexes. simpl.
    rewrite delete_id; [reflexivity|].
    by apply eq_None_not_Some.
Qed.



Lemma kept_uploads_lookup (pdf_name name : string) (files : gmap string string) :
  glob_matches pdf_name name = true → kept_uploads pdf_name files !! name = None.
Proof.
  intros Hmatch. apply map_lookup_filter_None. right. intros bytes _. simpl. congruence.
Qed.

End WorldFacts.

(** ** Ingestion *)

Section IngestFacts.
Context `{External} `{!ExternalLaws}.

Lemma set_embeddings_same (w : world) : set_embeddings (embeddings w) w = w.
Proof. by destruct w. Qed.

(** A call of [embed_documents] that raises leaves the instance as it
    was. *)
Lemma embed_documents_Raise (texts : list string) (self self' : LightweightEmbeddings)
    (e : exn) :
  embed_documents texts self = (Raise e, self') → self' = self.
Proof.
  unfold embed_documents. destruct (negb (is_fitted self)).
  - destruct (sk_fit texts); intros [= ]; congruence.
  - intros [= ]; congruence.
Qed.

Lemma create_embeddings_Raise (chunks : list string) (w w' : world) (e : exn) :
  create_embeddings chunks w = (Raise e, w') → w' = w.
Proof.
  unfold create_embeddings, try_except_action, raise.
  destruct (embed_documents chunks (embeddings w)) as [[v|e'] self'] eqn:Hrun;
    [discriminate|].
  apply embed_documents_Raise in Hrun as ->.
  intros [= _ <-]. apply set_embeddings_same.
Qed.

Lemma create_embeddings_Return (chunks : list string) (w w' : world)
    (store : vectorstore) :
  create_embeddings chunks w = (Return store, w') →
  uploads w' = uploads w ∧ indexes w' = indexes w ∧ texts store = chunks ∧
  embed_documents chunks (embeddings w) = (Return (vectors store), embeddings w').
Proof.
  unfold create_embeddings, try_except_action, raise.
  destruct (embed_documents chunks (embeddings w)) as [[v|e'] self'] eqn:Hrun;
    [|discriminate].
  by intros [= <- <-].
Qed.

(** The ingestion pipeline step by step, for a file name that names a
    file: the result of every step that can raise, and the world it
    leaves. *)
Lemma process_document_run (llm_handler : LLMHandler) (file filename : string)
    (w : world) :
  let safe_filename := sanitize_filename filename in
  let doc_name := path_stem (path_name safe_filename) in
  let staged := set_uploads (λ files, <[safe_filename := file]> files) w in
  let unstaged := set_uploads (λ files, delete safe_filename files) in
  names_upload_dir safe_filename = false →
  process_document llm_handler file filename w =
  match load_document safe_filename staged with
  | Raise e => (Return (Error (str e)), unstaged staged)
  | Return text =>
      match split_text text with
      | Raise e => (Return (Error (str e)), unstaged staged)
      | Return chunks =>
          match create_embeddings chunks staged with
          | (Raise e, w2) => (Return (Error (str e)), unstaged w2)
          | (Return store, w2) =>
              let saved := (save_vectorstore store doc_name w2).2 in
              match summarize_pdf llm_handler text with
              | Raise e => (Return (Error (str e)), unstaged saved)
              | Return summary =>
                  (Return (Success summary (document_pages safe_filename file)
                             doc_name (length chunks)),
                   saved)
              end
          end
      end
  end.
Proof.
  intros safe_filename doc_name staged unstaged Hname.
  assert (∀ w', uploads w' = uploads staged → upload_exists safe_filename w' = true)
    as Hexists.
  { intros w' Hup. unfold upload_exists. rewrite Hup. simpl.
    rewrite lookup_insert_eq, bool_decide_eq_true_2 by eauto.
    apply orb_true_r. }
  unfold process_document, try_except_action, mbind, action_bind, write_upload.
  fold safe_filename. rewrite Hname. unfold modify, get, lift. fold staged.
  destruct (load_document safe_filename staged) as [text|e].
  2:{ rewrite Hexists by done. unfold unlink_upload. by rewrite Hname. }
  destruct (split_text text) as [chunks|e].
  2:{ rewrite Hexists by done. unfold unlink_upload. by rewrite Hname. }
  destruct (create_embeddings chunks staged) as [[store|e] w2] eqn:Hembed.
  2:{ apply create_embeddings_Raise in Hembed as ->.
      rewrite Hexists by done. unfold unlink_upload. by rewrite Hname. }
  apply create_embeddings_Return in Hembed as (Hup & _).
  rewrite save_vectorstore_run. fold doc_name. simpl.
  destruct (summarize_pdf llm_handler text) as [summary|e]; [reflexivity|].
  rewrite Hexists by done. unfold unlink_upload. by rewrite Hname.
Qed.

(** For a file name pathlib drops, the path is the upload directory:
    staging raises, and so does the removal in the handler. *)
Lemma process_document_directory (llm_handler : LLMHandler) (file filename : string)
    (w : world) :
  names_upload_dir (sanitize_filename filename) = true →
  process_document llm_handler file filename w =
  (Raise (IsADirectoryError PDF_UPLOAD_DIR), w).
Proof.
  intros Hname.
  unfold process_document, try_except_action, mbind, action_bind, write_upload.
  rewrite Hname. unfold raise, get, upload_exists, unlink_upload.
  rewrite Hname. reflexivity.
Qed.

(** ** The index the engine builds can be searched *)

Lemma embeddings_ok_init : embeddings_ok LightweightEmbeddings_init.
Proof. reflexivity. Qed.

Lemma embed_documents_ok (texts : list string) (self : LightweightEmbeddings) :
  embeddings_ok self → embeddings_ok (embed_documents texts self).2.
Proof.
  unfold embeddings_ok, embed_documents.
  destruct self as [[fitted|] fit]; simpl.
  - by intros [-> Hvoc].
  - intros ->. simpl. unfold sk_fit.
    destruct (decide (select_features (analyze <$> texts) = [])); simpl; done.
Qed.

(** The vectors [create_embeddings] returns for chunks, with the embeddings
    it leaves, satisfy what C8 and C1 ask of an index and a query. *)
Lemma created_index_searchable (chunks : list string) (w w' : world)
    (store : vectorstore) (query : string) :
  chunks ≠ [] →
  embeddings_ok (embeddings w) →
  create_embeddings chunks w = (Return store, w') →
  ∃ query_vector,
    embed_query (embeddings w') query = Return query_vector ∧
    length (texts store) = length (vectors store) ∧
    compatible query_vector store.
Proof.
  intros Hchunks Hok Hcreate.
  apply create_embeddings_Return in Hcreate as (_ & _ & Htexts & Hembed).
  assert (∃ fitted,
    embeddings w' = {| vectorizer := Some fitted; is_fitted := true |} ∧
    vocabulary_ fitted ≠ [] ∧ vectors store = sk_transform fitted chunks)
    as (fitted & Hself & Hvoc & Hvectors).
  { unfold embeddings_ok, embed_documents in *.
    destruct (embeddings w) as [[fitted|] fit]; simpl in *.
    - destruct Hok as [-> Hvoc]. simpl in Hembed.
      injection Hembed as Hvectors Hself. by exists fitted.
    - subst fit. simpl in Hembed. unfold sk_fit in Hembed.
      destruct (decide (select_features (analyze <$> chunks) = [])) as [|Hvoc];
        [discriminate|].
      injection Hembed as Hvectors Hself. by eexists. }
  exists (tfidf_row (idf_ fitted) (count_row (vocabulary_ fitted) (analyze query))).
  unfold compatible. rewrite Hself, Hvectors, Htexts. split; [reflexivity|].
  split; [by rewrite sk_transform_length|].
  assert (length (tfidf_row (idf_ fitted)
            (count_row (vocabulary_ fitted) (analyze query))) =
          length (vocabulary_ fitted)) as Hq.
  { rewrite tfidf_row_length. unfold count_row. by rewrite length_fmap. }
  split; [|split].
  - intros Hnil. apply (f_equal length) in Hnil.
    rewrite sk_transform_length in Hnil. by destruct chunks.
  - intros Hnil. rewrite Hnil in Hq. simpl in Hq.
    by destruct (vocabulary_ fitted).
  - rewrite Hq. apply sk_transform_row_length.
Qed.

End IngestFacts.

(** ** Specified properties of persistence, the conversation store and the engine *)

Section ServiceClaims.
Context `{External} `{!ExternalLaws}.

(** C10: [load_vectorstore] never raises, whatever the document name and
    the disk: it returns [None] when no index directory exists, when the
    directory holds no vectors file, and when reading the file back fails
    (the exception is caught); it returns the stored index otherwise. *)
Theorem load_vectorstore_total (doc_name : string) (w : world) :
  (∃ loaded, load_vectorstore doc_name w = Return loaded) ∧
  (indexes w !! doc_name = None → load_vectorstore doc_name w = Return None) ∧
  (∀ dir, indexes w !! doc_name = Some dir → dir !! "vectors.pkl" = None →
     load_vectorstore doc_name w = Return None) ∧
  (∀ dir f e, indexes w !! doc_name = Some dir → dir !! "vectors.pkl" = Some f →
     pickle_load f = Raise e → load_vectorstore doc_name w = Return None) ∧
  (∀ dir f store, indexes w !! doc_name = Some dir → dir !! "vectors.pkl" = Some f →
     pickle_load f = Return store → load_vectorstore doc_name w = Return (Some store)).
Proof.
  split; [apply try_except_catch_all|].
  rewrite load_vectorstore_run.
  split; [by intros ->|]. split; [by intros dir -> ->|].
  split; intros dir [store'|bytes] ? -> ->; simpl; congruence.
Qed.

(** C6: saving an index returns, and loading it back from the disk it
    leaves yields an index on which [search] gives, for every state of the
    embeddings, every query and every [k], what it gives on the index that
    was saved; and [load_vectorstore] returns [None], not an error, when no
    index is saved under the name. *)
Theorem save_then_load_same_search (store : vectorstore) (doc_name : string) (w : world) :
  (∃ w' loaded,
     save_vectorstore store doc_name w = (Return tt, w') ∧
     load_vectorstore doc_name w' = Return (Some loaded) ∧
     ∀ embeddings query k,
       search embeddings query loaded k = search embeddings query store k) ∧
  (indexes w !! doc_name = None → load_vectorstore doc_name w = Return None).
Proof.
  split.
  - eexists _, store. split; [apply save_vectorstore_run|].
    split; [|reflexivity].
    rewrite load_vectorstore_run. simpl. by rewrite !lookup_insert_eq.
  - intros Hnone. rewrite load_vectorstore_run. by rewrite Hnone.
Qed.

(** C5: when the durable file exists and fails to parse, constructing the
    store returns: the history in memory is empty, the unreadable file is
    copied to the [.corrupted] file and stays where it is, and nothing else
    changes. *)
Theorem corrupted_history_recovered (w : world) (f : chat_file) (e : exn) :
  chat_history_json w = Some f →
  json_load f = Raise e →
  ∃ w',
    ChatManager_init w = (Return tt, w') ∧
    history w' = ∅ ∧
    chat_history_corrupted w' = Some f ∧
    chat_history_json w' = Some f ∧
    w' = set_chat_history_corrupted (Some f) (set_history (λ _, ∅) w).
Proof.
  intros Hfile Hparse.
  exists (set_chat_history_corrupted (Some f) (set_history (λ _, ∅) w)).
  split; [|by repeat split].
  destruct w as [files dirs log tmp corrupted backups emb vs ts logs].
  simpl in Hfile. subst log.
  unfold ChatManager_init, _load_history, try_except_action, mbind, action_bind,
    modify, get, copy_to_corrupted. simpl.
  rewrite Hparse. reflexivity.
Qed.

(** C4, as the code has it: for a document with stored history,
    [export_chat] always returns a string: the JSON document for the format
    json, the header and one quoted row per message for csv (both whatever
    the case of the letters), and for every other format the text
    [Export error: Unsupported format: <format>]; the [ValueError] is caught
    inside [export_chat] and is not raised to the caller. *)
Theorem export_chat_returns (pdf_name format : string) (w : world) (chat : chat_data) :
  history w !! pdf_name = Some chat →
  (lower format = "json" →
     export_chat pdf_name format w = Return (json_dumps chat)) ∧
  (lower format = "csv" →
     export_chat pdf_name format w =
       Return (join newline ("Role,Content,Timestamp" :: (csv_line <$> messages chat)))) ∧
  (lower format ≠ "json" → lower format ≠ "csv" →
     export_chat pdf_name format w =
       Return ("Export error: Unsupported format: " +:+ format)).
Proof.
  intros Hchat. unfold export_chat. rewrite Hchat.
  split; [|split].
  - intros Hjson. by rewrite bool_decide_eq_true_2.
  - intros Hcsv. rewrite bool_decide_eq_false_2 by (rewrite Hcsv; discriminate).
    by rewrite bool_decide_eq_true_2.
  - intros Hjson Hcsv. by rewrite !bool_decide_eq_false_2.
Qed.



(** ** From ingestion to search *)

(** X29: a document whose ingestion succeeded can be loaded and searched: the
    index on disk holds its chunks, and every query on it, with the
    embeddings the ingestion left, returns hits with non-increasing
    scores. *)
Theorem ingested_document_searchable (llm_handler : LLMHandler)
    (file filename : string) (w w' : world)
    (summary : string) (page_count : nat) (pdf_name : string) (chunks_created : nat)
    (query : string) (k : Z) :
  embeddings_ok (embeddings w) →
  process_document llm_handler file filename w =
    (Return (Success summary page_count pdf_name chunks_created), w') →
  ∃ store results,
    load_vectorstore pdf_name w' = Return (Some store) ∧
    length (texts store) = chunks_created ∧
    search (embeddings w') query store k = Return results ∧
    non_increasing results.*2.
Proof.
  intros Hok Hrun.
  destruct (names_upload_dir (sanitize_filename filename)) eqn:Hname.
  { by rewrite process_document_directory in Hrun. }
  rewrite (process_document_run llm_handler file filename w Hname) in Hrun.
  destruct (load_document _ _) as [text|]; [|discriminate].
  destruct (split_text text) as [chunks|] eqn:Hsplit; [|discriminate].
  destruct (create_embeddings chunks _) as [[store|] w2] eqn:Hcreate; [|discriminate].
  destruct (summarize_pdf llm_handler text); [|discriminate].
  injection Hrun as <- <- <- <- <-.
  assert (chunks ≠ []) as Hchunks.
  { unfold split_text in Hsplit. case_bool_decide; simpl in Hsplit; congruence. }
  assert (embeddings_ok (embeddings
            (set_uploads (λ files, <[sanitize_filename filename := file]> files) w)))
    as Hok' by exact Hok.
  destruct (created_index_searchable chunks _ _ store query Hchunks Hok' Hcreate)
    as (query_vector & Hquery & Hlen & Hcompat).
  destruct (search_returns _ _ _ k _ Hquery Hlen Hcompat) as [results Hsearch].
  assert (non_increasing results.*2) as Hsorted.
  { apply search_Return in Hsearch as (q & _ & _ & Hhits).
    exact (search_scores_non_increasing_hits _ _ _ _ Hhits). }
  exists store, results.
  split; [rewrite load_vectorstore_run; simpl; by rewrite !lookup_insert_eq|].
  split; [by apply create_embeddings_Return in Hcreate as (_ & _ & -> & _)|].
  done.
Qed.

End ServiceClaims.

(** ** Persistence, the conversation store and the engine on the
    reference instance *)

Section ServiceExamples.
Import QArith Reference Examples Worlds.
#[local] Close Scope Q_scope.

(** The construction of C5 on a conversation file that is not JSON. *)
Lemma corrupted_history_recovered_broken_log :
  (chat_history_json with_broken_log = Some (NotJson "{ messages: [") ∧
   json_load (NotJson "{ messages: [") = Raise (JSONDecodeError "Expecting value")) ∧
  ∃ w',
    ChatManager_init with_broken_log = (Return tt, w') ∧
    history w' = ∅ ∧
    chat_history_corrupted w' = Some (NotJson "{ messages: [") ∧
    chat_history_json w' = Some (NotJson "{ messages: [") ∧
    w' = set_chat_history_corrupted (Some (NotJson "{ messages: ["))
           (set_history (λ _, ∅) with_broken_log).
Proof.
  split; [split; reflexivity|].
  apply (corrupted_history_recovered with_broken_log (NotJson "{ messages: [")
           (JSONDecodeError "Expecting value")); reflexivity.
Defined.

(** C4 as stated fails: the document has two stored messages, the format
    is neither json nor csv, and [export_chat] returns a string instead of
    raising. *)
Lemma export_chat_unsupported_format_returns :
  length <$> (messages <$> history with_two_messages !! "notes") = Some 2 ∧
  lower "xml" ≠ "json" ∧ lower "xml" ≠ "csv" ∧
  export_chat "notes" "xml" with_two_messages =
    Return "Export error: Unsupported format: xml".
Proof. repeat split; try discriminate; reflexivity. Qed.

(** The exports of C4 on the document with two stored messages. *)
Lemma export_chat_returns_two_messages :
  (∃ chat, history with_two_messages !! "notes" = Some chat) ∧
  ∃ chat,
    history with_two_messages !! "notes" = Some chat ∧
    (lower "CSV" = "json" →
       export_chat "notes" "CSV" with_two_messages = Return (json_dumps chat)) ∧
    (lower "CSV" = "csv" →
       export_chat "notes" "CSV" with_two_messages =
         Return (join newline ("Role,Content,Timestamp" :: (csv_line <$> messages chat)))) ∧
    (lower "CSV" ≠ "json" → lower "CSV" ≠ "csv" →
       export_chat "notes" "CSV" with_two_messages =
         Return ("Export error: Unsupported format: " +:+ "CSV")).
Proof.
  assert (∃ chat, history with_two_messages !! "notes" = Some chat) as Hchat.
  { eexists. reflexivity. }
  split; [exact Hchat|].
  destruct Hchat as [chat Hchat]. exists chat. split; [exact Hchat|].
  exact (export_chat_returns "notes" "CSV" with_two_messages chat Hchat).
Defined.





End ServiceExamples.

(** ** The conversation store *)

Section ConversationFacts.
Context `{External}.

(** The update of [add_message] on the dictionary: the log is made when
    missing, then extended. *)
Lemma add_message_history (pdf_name : string) (msg : message) (h : gmap string chat_data) :
  alter (λ d, ChatData (messages d ++ [msg]) (created_at d) (timestamp msg)) pdf_name
    (match h !! pdf_name with
     | Some _ => h
     | None => <[pdf_name := ChatData [] (timestamp msg) (timestamp msg)]> h
     end) =
  with_message pdf_name msg h.
Proof.
  unfold with_message. apply map_eq. intros k.
  destruct (h !! pdf_name) as [d|] eqn:Hd; simpl;
    (destruct (decide (k = pdf_name)) as [->|Hne];
     [by rewrite lookup_alter_eq, ?lookup_insert_eq, ?Hd
     |by rewrite lookup_alter_ne, ?lookup_insert_ne]).
Qed.

Lemma add_message_run (pdf_name role content : string) (metadata : option json)
    (now : string) (w : world) :
  add_message pdf_name role content metadata now w =
  (Return tt,
   saved (with_message pdf_name
            (Message role content now (metadata_or_empty metadata)) (history w)) w).
Proof.
  unfold add_message, try_except_action, mbind, action_bind, modify.
  rewrite _save_run.
  pose proof (add_message_history pdf_name
                (Message role content now (metadata_or_empty metadata)) (history w)) as Hh.
  simpl in Hh. destruct w as [? ? ? ? ? ? ? ? ? h]. simpl in *.
  unfold set_chat_history_tmp, set_chat_history_json, set_history, saved. simpl.
  by rewrite Hh.
Qed.

Lemma get_chat_history_run (pdf_name : string) (limit : Z) (w : world) :
  get_chat_history pdf_name limit w =
  Return (let all := from_option messages [] (history w !! pdf_name) in
          if (0 <? limit)%Z then py_slice_last limit all else all).
Proof.
  unfold get_chat_history. destruct (history w !! pdf_name); simpl; [done|].
  by destruct (0 <? limit)%Z.
Qed.

Lemma get_statistics_run (pdf_name : string) (w : world) :
  get_statistics pdf_name w =
  Return {| total_messages := length (from_option messages [] (history w !! pdf_name));
            first_chat := created_at <$> history w !! pdf_name;
            last_chat := updated_at <$> history w !! pdf_name |}.
Proof. unfold get_statistics. by destruct (history w !! pdf_name). Qed.

Lemma elem_of_get_all_pdfs (pdf_name : string) (w : world) :
  pdf_name ∈ get_all_pdfs w ↔ is_Some (history w !! pdf_name).
Proof.
  unfold get_all_pdfs. rewrite list_elem_of_fmap. split.
  - intros ([k d] & -> & Hin). apply elem_of_map_to_list in Hin. by exists d.
  - intros [d Hd]. exists (pdf_name, d). split; [done|]. by apply elem_of_map_to_list.
Qed.

Lemma in_sync_saved (h : gmap string chat_data) (w : world) : in_sync (saved h w).
Proof. by split. Qed.

Lemma ChatManager_init_in_sync (w : world) :
  in_sync w → ChatManager_init w = (Return tt, w).
Proof.
  intros [Hjson Htmp]. destruct w as [? ? ? ? ? ? ? ? ? h]. simpl in *. subst.
  reflexivity.
Qed.

End ConversationFacts.

Section ConversationProperties.
Context `{External}.

(** X1: [add_message] returns and puts the message at the end of the log
    of its document, after the messages already there, with the time of
    the call and with its metadata, an empty dictionary when the metadata
    are missing or are a value Python takes for false;
    [get_chat_history] with the limit 0, which returns the whole log, then
    returns the messages from before followed by the new one.  The log of
    every other document reads as before, and the uploads, the indexes and
    the embeddings are not touched. *)
Theorem add_message_appends (pdf_name role content : string)
    (metadata : option json) (now : string) (w : world) :
  ∃ old w',
    get_chat_history pdf_name 0 w = Return old ∧
    add_message pdf_name role content metadata now w = (Return tt, w') ∧
    get_chat_history pdf_name 0 w' =
      Return (old ++ [Message role content now (metadata_or_empty metadata)])%list ∧
    (∀ other limit, other ≠ pdf_name →
       get_chat_history other limit w' = get_chat_history other limit w) ∧
    uploads w' = uploads w ∧ indexes w' = indexes w ∧ embeddings w' = embeddings w.
Proof.
  eexists _, _. split; [apply get_chat_history_run|].
  split; [apply add_message_run|].
  split; [|split; [|done]].
  - rewrite get_chat_history_run. simpl. unfold with_message.
    by rewrite lookup_insert_eq.
  - intros other limit Hne. rewrite !get_chat_history_run. simpl.
    unfold with_message. by rewrite lookup_insert_ne.
Qed.

(** X2: [get_chat_history] never raises.  With a positive limit it returns
    the last [limit] messages of the log, in their order, and the whole log
    when it is shorter; with a limit of zero or below it returns the whole
    log; for a document without a log it returns the empty list. *)
Theorem get_chat_history_window (pdf_name : string) (limit : Z) (w : world) :
  ∃ all window,
    get_chat_history pdf_name 0 w = Return all ∧
    get_chat_history pdf_name limit w = Return window ∧
    window `suffix_of` all ∧
    length window =
      (if (0 <? limit)%Z then Z.to_nat limit `min` length all else length all) ∧
    (history w !! pdf_name = None → all = []).
Proof.
  eexists _, _. split; [apply get_chat_history_run|].
  split; [apply get_chat_history_run|]. simpl.
  set (all := from_option messages [] (history w !! pdf_name)).
  split; [|split].
  - destruct (0 <? limit)%Z; [|done]. unfold py_slice_last. apply suffix_drop.
  - destruct (0 <? limit)%Z; [|done]. unfold py_slice_last. rewrite length_drop. lia.
  - unfold all. by intros ->.
Qed.

(** X3: the statistics follow the log: [total_messages] is the number of
    messages [get_chat_history] returns without a limit, and a document is
    listed by [get_all_pdfs] exactly when its statistics have a first
    chat.  After [add_message] the count is one higher, [last_chat] is the
    time of the message and [first_chat] is the one from before, the time
    of the message for a new log. *)
Theorem get_statistics_follow_log (pdf_name role content : string)
    (metadata : option json) (now : string) (w : world) :
  ∃ all before after,
    get_chat_history pdf_name 0 w = Return all ∧
    get_statistics pdf_name w = Return before ∧
    total_messages before = length all ∧
    (pdf_name ∈ get_all_pdfs w ↔ is_Some (first_chat before)) ∧
    get_statistics pdf_name (add_message pdf_name role content metadata now w).2 =
      Return after ∧
    total_messages after = S (total_messages before) ∧
    first_chat after = Some (default now (first_chat before)) ∧
    last_chat after = Some now.
Proof.
  rewrite add_message_run.
  eexists _, _, _. split; [apply get_chat_history_run|].
  split; [apply get_statistics_run|].
  split; [done|].
  split; [rewrite elem_of_get_all_pdfs; simpl; by rewrite fmap_is_Some|].
  rewrite get_statistics_run. simpl. unfold with_message.
  rewrite lookup_insert_eq. simpl. split; [done|].
  split; [rewrite length_app; simpl; lia|].
  by destruct (history w !! pdf_name).
Qed.

(** X4: [add_message] and [clear_history], and [delete_pdf] on a document
    name, each leave the conversation file equal to the history in
    memory, with no [.tmp] file behind. *)
Theorem conversation_file_in_sync (pdf_name role content : string)
    (metadata : option json) (now stamp : string) (cleared_name : option string)
    (w : world) :
  in_sync (add_message pdf_name role content metadata now w).2 ∧
  in_sync (clear_history cleared_name stamp w).2 ∧
  (document_name pdf_name → in_sync (delete_pdf pdf_name stamp w).2).
Proof.
  rewrite add_message_run, clear_history_run, delete_pdf_run. by repeat split.
Qed.

(** X5: a new process started on a disk whose conversation file is in
    sync reads the same history back: every log, message by message, and
    the list of documents are those of the session before.  The embeddings
    of the new process are not fitted. *)
Theorem history_survives_new_session (w : world) :
  in_sync w →
  history (new_session w) = history w ∧
  (∀ pdf_name limit,
     get_chat_history pdf_name limit (new_session w) = get_chat_history pdf_name limit w) ∧
  get_all_pdfs (new_session w) = get_all_pdfs w ∧
  in_sync (new_session w) ∧
  is_fitted (embeddings (new_session w)) = false.
Proof.
  intros [Hjson Htmp].
  assert (history (new_session w) = history w ∧ in_sync (new_session w) ∧
          is_fitted (embeddings (new_session w)) = false) as (Hh & Hsync & Hfit).
  { destruct w as [? ? ? ? ? ? ? ? ? h]. simpl in *. subst. by repeat split. }
  split; [done|]. split; [|by unfold get_all_pdfs; rewrite Hh].
  intros pdf_name limit. by rewrite !get_chat_history_run, Hh.
Qed.

(** X6: [clear_history()] without a document empties the store: no document
    is listed, every log reads empty and every export answers that there
    is no history; the conversation file as it was before the call is kept
    as the backup of the stamp. *)
Theorem clear_history_all (stamp : string) (w : world) :
  ∃ w',
    clear_history None stamp w = (Return tt, w') ∧
    get_all_pdfs w' = [] ∧
    (∀ pdf_name limit, get_chat_history pdf_name limit w' = Return []) ∧
    (∀ pdf_name format, export_chat pdf_name format w' = Return "No chat history found") ∧
    (∀ f, chat_history_json w = Some f → chat_history_backups w' !! stamp = Some f).
Proof.
  eexists. split; [apply clear_history_run|].
  split; [unfold get_all_pdfs; simpl; by rewrite map_to_list_empty|].
  split; [|split].
  - intros pdf_name limit. rewrite get_chat_history_run. simpl.
    rewrite lookup_empty. simpl. by destruct (0 <? limit)%Z.
  - intros pdf_name format. unfold export_chat. simpl. by rewrite lookup_empty.
  - intros f Hf. simpl. rewrite Hf. by rewrite lookup_insert_eq.
Qed.

(** X7: [clear_history(pdf_name)] removes the log of that document and no
    other: the document is no longer listed and reads empty, every other
    document is listed as before and reads as before. *)
Theorem clear_history_one (pdf_name stamp : string) (w : world) :
  ∃ w',
    clear_history (Some pdf_name) stamp w = (Return tt, w') ∧
    (pdf_name ∉ get_all_pdfs w') ∧
    (∀ limit, get_chat_history pdf_name limit w' = Return []) ∧
    (∀ other, other ≠ pdf_name →
       (other ∈ get_all_pdfs w' ↔ other ∈ get_all_pdfs w) ∧
       (∀ limit, get_chat_history other limit w' = get_chat_history other limit w)).
Proof.
  eexists. split; [apply clear_history_run|].
  split; [|split].
  - rewrite elem_of_get_all_pdfs. simpl. rewrite lookup_delete_eq. by intros [? ?].
  - intros limit. rewrite get_chat_history_run. simpl. rewrite lookup_delete_eq.
    simpl. by destruct (0 <? limit)%Z.
  - intros other Hne. split.
    + rewrite !elem_of_get_all_pdfs. simpl. by rewrite lookup_delete_ne.
    + intros limit. rewrite !get_chat_history_run. simpl. by rewrite lookup_delete_ne.
Qed.

(** X8: the backups are named by the second.  When [clear_history] runs
    twice under the same stamp, the second backup replaces the first: the
    file kept under the stamp is the one the first call wrote, without the
    logs that call removed, and the file from before the first call is
    kept only if an older backup holds it. *)
Theorem clear_history_same_stamp_overwrites (first second : option string)
    (stamp : string) (w : world) (f : chat_file) :
  chat_history_json w = Some f →
  let w1 := (clear_history first stamp w).2 in
  let w2 := (clear_history second stamp w1).2 in
  chat_history_backups w1 !! stamp = Some f ∧
  chat_history_backups w2 !! stamp = Some (JsonDoc (history w1)) ∧
  (∀ other, other ≠ stamp →
     chat_history_backups w2 !! other = chat_history_backups w !! other).
Proof.
  intros Hf w1 w2. unfold w2, w1. rewrite !clear_history_run. simpl. rewrite Hf.
  split; [by rewrite lookup_insert_eq|]. split; [by rewrite lookup_insert_eq|].
  intros other Hne. by rewrite !lookup_insert_ne.
Qed.

End ConversationProperties.

(** ** More on the search *)

Section SearchSelection.
Context `{External} `{!ExternalLaws}.

(** The selection of [search] is a prefix of the whole ranking. *)
Lemma top_indices_prefix (similarities : list float) (k : Z) :
  ∃ n, top_indices similarities k = take n (top_indices similarities
                                             (Z.of_nat (length similarities))).
Proof.
  unfold top_indices at 2. rewrite py_slice_to_all.
  - apply py_slice_to_take.
  - rewrite length_reverse, argsort_Permutation, length_seq. lia.
Qed.

Lemma top_indices_NoDup (similarities : list float) (k : Z) :
  NoDup (top_indices similarities k).
Proof.
  unfold top_indices. destruct (py_slice_to_take k (reverse (argsort similarities))) as [n ->].
  eapply sublist_NoDup; [|apply sublist_take].
  rewrite reverse_Permutation, argsort_Permutation. apply NoDup_seq.
Qed.

(** Every index of the similarities has a place in the whole ranking. *)
Lemma top_indices_complete (similarities : list float) (idx : nat) :
  idx < length similarities →
  ∃ p, top_indices similarities (Z.of_nat (length similarities)) !! p = Some idx.
Proof.
  intros Hidx. apply list_elem_of_lookup. unfold top_indices.
  rewrite py_slice_to_all
    by (rewrite length_reverse, argsort_Permutation, length_seq; lia).
  rewrite elem_of_reverse, argsort_Permutation. apply elem_of_seq. lia.
Qed.

(** A chunk that is not selected scores no higher than a selected one. *)
Lemma top_indices_best (similarities : list float) (k : Z) (i j : nat)
    (s_i s_j : float) :
  i ∈ top_indices similarities k →
  j ∉ top_indices similarities k →
  similarities !! i = Some s_i →
  similarities !! j = Some s_j →
  float_leb s_j s_i = true.
Proof.
  intros Hi Hj Hsi Hsj.
  destruct (top_indices_prefix similarities k) as [n Hn]. rewrite Hn in Hi, Hj.
  set (full := top_indices similarities (Z.of_nat (length similarities))) in *.
  apply list_elem_of_lookup in Hi as [p Hp].
  apply lookup_take_Some in Hp as [Hp Hpn].
  destruct (top_indices_complete similarities j) as [q Hq].
  { by eapply lookup_lt_Some. }
  fold full in Hq.
  assert (n ≤ q)%nat as Hnq.
  { destruct (decide (q < n)) as [Hlt|]; [|lia].
    exfalso. apply Hj. apply list_elem_of_lookup. exists q.
    by apply lookup_take_Some. }
  eapply (top_indices_order similarities _ p q i j); [exact Hp|exact Hq|done|done|lia].
Qed.

(** X9: what [search] returns is a best selection.  The hits are the
    chunks of distinct stored indices, each with its own text and its
    similarity to the query, and every stored chunk that is not among them
    has a similarity that is not above the score of any hit. *)
Theorem search_returns_highest_scores (embeddings : LightweightEmbeddings)
    (query : string) (store : vectorstore) (k : Z) (results : list (string * float)) :
  search embeddings query store k = Return results →
  ∃ query_vector selected,
    embed_query embeddings query = Return query_vector ∧
    NoDup selected ∧
    Forall2 (λ idx hit,
               texts store !! idx = Some hit.1 ∧
               (cosine query_vector <$> vectors store) !! idx = Some hit.2)
      selected results ∧
    ∀ idx, idx ∉ selected →
      Forall (λ hit,
                from_option (λ score, float_leb score hit.2) true
                  ((cosine query_vector <$> vectors store) !! idx) = true)
        results.
Proof.
  intros Hsearch. apply search_Return in Hsearch as (query_vector & Hq & _ & Hhits).
  set (similarities := cosine query_vector <$> vectors store) in *.
  exists query_vector, (top_indices similarities k).
  split; [done|]. split; [apply top_indices_NoDup|].
  split; [exact Hhits|].
  intros idx Hidx. apply Forall_forall. intros hit Hhit.
  cbn beta. fold similarities.
  destruct (similarities !! idx) as [score|] eqn:Hscore; [simpl|reflexivity].
  apply list_elem_of_lookup in Hhit as [p Hp].
  destruct (Forall2_lookup_r _ _ _ _ _ Hhits Hp) as (i & Hi & _ & Hsi).
  eapply (top_indices_best similarities k i idx); [|done|done|done].
  by eapply list_elem_of_lookup_2.
Qed.

(** X10: a negative [k] is not refused: the slice then leaves out the
    last [-k] places of the ranking, so [search] returns the chunks but
    the [-k] lowest ones, still from the highest score down, and nothing
    when [-k] reaches the number of chunks. *)
Theorem search_negative_k_drops_lowest (embeddings : LightweightEmbeddings)
    (query : string) (store : vectorstore) (k : Z) (query_vector : list float) :
  embed_query embeddings query = Return query_vector →
  length (texts store) = length (vectors store) →
  compatible query_vector store →
  (k < 0)%Z →
  ∃ results,
    search embeddings query store k = Return results ∧
    length results = length (texts store) - Z.to_nat (- k) ∧
    non_increasing results.*2.
Proof.
  intros Hq Hlen Hcompat Hk.
  destruct (search_returns _ _ _ k _ Hq Hlen Hcompat) as [results Hres].
  exists results. split; [exact Hres|].
  apply search_Return in Hres as (q & Hq' & _ & Hhits).
  assert (q = query_vector) as -> by congruence.
  split; [|exact (search_scores_non_increasing_hits _ _ _ _ Hhits)].
  rewrite <- (Forall2_length _ _ _ Hhits). unfold top_indices, py_slice_to.
  destruct (Z.leb_spec 0 k) as [|_]; [lia|].
  rewrite length_take, length_reverse, argsort_Permutation, length_seq, length_fmap.
  lia.
Qed.

(** X11: [search] returns exactly when the query can be embedded, the
    index is one [cosine_similarity] accepts for the query vector, and
    every selected index has a text; in every other case it raises a
    [RuntimeError] whose message starts with the words of its handler. *)
Theorem search_returns_exactly_when (embeddings : LightweightEmbeddings)
    (query : string) (store : vectorstore) (k : Z) :
  ((∃ results, search embeddings query store k = Return results) ↔
   ∃ query_vector,
     embed_query embeddings query = Return query_vector ∧
     compatible query_vector store ∧
     Forall (λ idx, idx < length (texts store))
       (top_indices (cosine query_vector <$> vectors store) k)) ∧
  (∀ e, search embeddings query store k = Raise e →
     ∃ cause, e = RuntimeError ("Failed to search vectorstore: " +:+ cause)).
Proof.
  split; [split|].
  - intros [results Hsearch].
    pose proof Hsearch as (query_vector & Hq & Hcos & Hhits)%search_Return.
    exists query_vector. split; [done|]. split.
    + unfold cosine_similarity in Hcos. case_bool_decide; [done|discriminate].
    + apply Forall_forall. intros idx Hidx.
      apply list_elem_of_lookup in Hidx as [p Hp].
      destruct (Forall2_lookup_l _ _ _ _ _ Hhits Hp) as (hit & _ & Ht & _).
      by eapply lookup_lt_Some.
  - intros (query_vector & Hq & Hcompat & Htexts).
    unfold search. rewrite Hq. cbn.
    unfold cosine_similarity. rewrite bool_decide_eq_true_2 by exact Hcompat. cbn.
    set (similarities := cosine query_vector <$> vectors store) in *.
    assert (∃ results,
      Forall2 (λ idx hit, search_hit (texts store) similarities idx = Return hit)
        (top_indices similarities k) results) as [results Hres].
    { assert (Forall (λ idx, idx < length similarities) (top_indices similarities k)) as Hall.
      { apply Forall_forall. intros idx. apply top_indices_in_range. }
      induction Hall as [|idx indices Hidx _ IH]; [by exists []|].
      apply Forall_cons in Htexts as [Hidx' Htexts].
      destruct (IH Htexts) as [results Hres].
      destruct (lookup_lt_is_Some_2 similarities idx Hidx) as [s Hs].
      destruct (lookup_lt_is_Some_2 (texts store) idx Hidx') as [d Hd].
      exists ((d, s) :: results). constructor; [|exact Hres].
      unfold search_hit, py_index. by rewrite Hd, Hs. }
    exists results. apply mapM_Return in Hres. by rewrite Hres.
  - intros e. unfold search, try_except.
    destruct (_ ≫= _) as [results|cause]; [discriminate|].
    intros [= <-]. by eexists.
Qed.

End SearchSelection.

Section UnknownTerms.
Context `{External}.

(** The row of counts of a document none of whose terms is in the
    vocabulary is the row of the document without terms. *)
Lemma count_row_unknown_terms (vocabulary tokens : list string) :
  Forall (λ t, t ∉ vocabulary) tokens →
  count_row vocabulary tokens = count_row vocabulary [].
Proof.
  intros Hnone. unfold count_row. apply list_fmap_ext. intros i term Hterm.
  apply list_elem_of_lookup_2 in Hterm.
  induction Hnone as [|t tokens Hnot _ IH]; [done|].
  rewrite filter_cons. destruct (decide (t = term)) as [->|_]; [done|exact IH].
Qed.

(** X12: the vocabulary is fixed by the first fit, so the chunks of a later
    document none of whose terms is in it all get one and the same vector,
    the one of a text without terms; whatever the query and [k], the hits
    [search] returns on their index all carry the same score: it cannot
    rank them. *)
Theorem chunks_of_unknown_terms_score_alike (fitted : TfidfVectorizer)
    (chunks : list string) (embeddings : LightweightEmbeddings) (query : string)
    (k : Z) (results : list (string * float)) :
  Forall (λ chunk, Forall (λ t, t ∉ vocabulary_ fitted) (analyze chunk)) chunks →
  search embeddings query {| vectors := sk_transform fitted chunks; texts := chunks |} k =
    Return results →
  Forall (λ row, row = tfidf_row (idf_ fitted) (count_row (vocabulary_ fitted) []))
    (sk_transform fitted chunks) ∧
  ∃ score, Forall (λ hit, hit.2 = score) results.
Proof.
  intros Hnone Hsearch.
  assert (Forall (λ row, row = tfidf_row (idf_ fitted) (count_row (vocabulary_ fitted) []))
            (sk_transform fitted chunks)) as Hrows.
  { unfold sk_transform. apply Forall_fmap. eapply Forall_impl; [exact Hnone|].
    intros chunk Hchunk. simpl. by rewrite (count_row_unknown_terms _ _ Hchunk). }
  split; [exact Hrows|].
  apply search_Return in Hsearch as (query_vector & _ & _ & Hhits). simpl in Hhits.
  exists (cosine query_vector (tfidf_row (idf_ fitted) (count_row (vocabulary_ fitted) []))).
  apply Forall_forall. intros hit Hhit.
  apply list_elem_of_lookup in Hhit as [p Hp].
  destruct (Forall2_lookup_r _ _ _ _ _ Hhits Hp) as (idx & _ & _ & Hscore).
  rewrite list_lookup_fmap in Hscore.
  destruct (sk_transform fitted chunks !! idx) as [row|] eqn:Hrow; [|discriminate].
  injection Hscore as <-.
  by rewrite (proj1 (Forall_forall _ _) Hrows row (list_elem_of_lookup_2 _ _ _ Hrow)).
Qed.

End UnknownTerms.

(** ** More on the ingestion *)

Section IngestionFacts.
Context `{External}.

(** [load_document] reads the one file it is given, and nothing else of
    the world. *)
Lemma read_upload_ext (name : string) (w v : world) :
  uploads w !! name = uploads v !! name → read_upload name w = read_upload name v.
Proof. intros Heq. unfold read_upload. by rewrite Heq. Qed.

Lemma load_document_ext (name : string) (w v : world) :
  uploads w !! name = uploads v !! name → load_document name w = load_document name v.
Proof.
  intros Heq. unfold load_document, _load_pdf, _load_text, _load_docx.
  by rewrite (read_upload_ext name w v Heq).
Qed.

(** What [embed_documents] returns with, on an instance that is as the
    calls leave it. *)
Lemma embed_documents_Return (texts : list string) (self self' : LightweightEmbeddings)
    (vectors : list (list float)) :
  embeddings_ok self →
  embed_documents texts self = (Return vectors, self') →
  ∃ fitted,
    self' = {| vectorizer := Some fitted; is_fitted := true |} ∧
    vectors = sk_transform fitted texts ∧
    (if is_fitted self then self' = self else sk_fit texts = Return fitted).
Proof.
  unfold embeddings_ok, embed_documents.
  destruct self as [[fitted|] fit]; simpl.
  - intros [-> _]. simpl. intros [= <- <-]. by exists fitted.
  - intros ->. simpl. destruct (sk_fit texts) as [fitted|]; [|discriminate].
    intros [= <- <-]. by exists fitted.
Qed.

Lemma create_embeddings_run (chunks : list string) (w : world) :
  create_embeddings chunks w =
  match embed_documents chunks (embeddings w) with
  | (Return vectors, e') =>
      (Return {| vectors := vectors; texts := chunks |},
       set_last vectors chunks (set_embeddings e' w))
  | (Raise e, _) => (Raise (RuntimeError ("Failed to create embeddings: " +:+ str e)), w)
  end.
Proof.
  unfold create_embeddings, try_except_action.
  destruct (embed_documents chunks (embeddings w)) as [[vectors|e] e'] eqn:Hembed;
    [done|].
  apply embed_documents_Raise in Hembed as ->. by rewrite set_embeddings_same.
Qed.

(** What an ingestion that succeeded has done, step by step. *)
Lemma process_document_Success (llm_handler : LLMHandler) (file filename : string)
    (w w' : world) (summary : string) (page_count : nat) (pdf_name : string)
    (chunks_created : nat) :
  process_document llm_handler file filename w =
    (Return (Success summary page_count pdf_name chunks_created), w') →
  let safe_filename := sanitize_filename filename in
  let staged := set_uploads (λ files, <[safe_filename := file]> files) w in
  ∃ text chunks vectors e',
    names_upload_dir safe_filename = false ∧
    load_document safe_filename staged = Return text ∧
    split_text text = Return chunks ∧
    chunks ≠ [] ∧
    embed_documents chunks (embeddings w) = (Return vectors, e') ∧
    summarize_pdf llm_handler text = Return summary ∧
    page_count = document_pages safe_filename file ∧
    pdf_name = path_stem (path_name safe_filename) ∧
    chunks_created = length chunks ∧
    w' = (save_vectorstore {| vectors := vectors; texts := chunks |} pdf_name
            (set_last vectors chunks (set_embeddings e' staged))).2.
Proof.
  intros Hrun safe_filename staged.
  destruct (names_upload_dir safe_filename) eqn:Hname.
  { by rewrite process_document_directory in Hrun. }
  rewrite (process_document_run llm_handler file filename w Hname) in Hrun.
  fold safe_filename staged in Hrun.
  destruct (load_document safe_filename staged) as [text|] eqn:Hload; [|discriminate].
  destruct (split_text text) as [chunks|] eqn:Hsplit; [|discriminate].
  rewrite create_embeddings_run in Hrun.
  change (embeddings staged) with (embeddings w) in Hrun.
  destruct (embed_documents chunks (embeddings w)) as [[vectors|] e'] eqn:Hembed;
    [|discriminate].
  destruct (summarize_pdf llm_handler text) eqn:Hsummary; [|discriminate].
  injection Hrun as <- <- <- <- <-.
  assert (chunks ≠ []) as Hchunks.
  { unfold split_text in Hsplit. case_bool_decide; simpl in Hsplit; congruence. }
  exists text, chunks, vectors, e'. by repeat (split; [done|]).
Qed.

End IngestionFacts.

Section IngestionProperties.
Context `{External}.

(** X13: what a successful ingestion leaves.  The document is named by the
    stem of the sanitized file name and has a chunk at least; the file is
    staged under the sanitized name with the bytes uploaded and every
    other staged file is as before; the index of the document holds the
    chunks and passes the validation of [query]; the directory of every
    other document, the conversation file, its backups and the history are
    untouched. *)
Theorem process_document_success_effects (llm_handler : LLMHandler)
    (file filename : string) (w w' : world)
    (summary : string) (page_count : nat) (pdf_name : string) (chunks_created : nat) :
  process_document llm_handler file filename w =
    (Return (Success summary page_count pdf_name chunks_created), w') →
  pdf_name = path_stem (sanitize_filename filename) ∧
  (1 ≤ chunks_created)%nat ∧
  uploads w' = <[sanitize_filename filename := file]> (uploads w) ∧
  (∃ store, load_vectorstore pdf_name w' = Return (Some store) ∧
            length (texts store) = chunks_created) ∧
  _validate_vectorstore pdf_name w' = true ∧
  (∀ other, other ≠ pdf_name → indexes w' !! other = indexes w !! other) ∧
  history w' = history w ∧
  chat_history_json w' = chat_history_json w ∧
  chat_history_backups w' = chat_history_backups w.
Proof.
  intros Hrun.
  apply process_document_Success in Hrun
    as (text & chunks & vectors & e' & Hname & _ & _ & Hchunks & _ & _ & _ & -> & -> & ->).
  rewrite save_vectorstore_run. simpl.
  split; [unfold path_name; by rewrite Hname|].
  split; [destruct chunks; [done|simpl; lia]|].
  split; [done|].
  split; [eexists; split; [rewrite load_vectorstore_run; simpl;
                           by rewrite !lookup_insert_eq|done]|].
  split.
  { unfold _validate_vectorstore. simpl. rewrite lookup_insert_eq.
    apply bool_decide_eq_true_2. apply insert_non_empty. }
  split; [|done].
  intros other Hne. by rewrite lookup_insert_ne.
Qed.

(** X14: once the embeddings of a session are fitted, no ingestion changes
    them, whether it succeeds, fails or raises: every later document is
    indexed with the vocabulary the session already has. *)
Theorem process_document_keeps_fitted_embeddings (llm_handler : LLMHandler)
    (file filename : string) (w : world) :
  is_fitted (embeddings w) = true →
  embeddings (process_document llm_handler file filename w).2 = embeddings w.
Proof.
  intros Hfit.
  destruct (names_upload_dir (sanitize_filename filename)) eqn:Hname.
  { by rewrite process_document_directory. }
  rewrite (process_document_run llm_handler file filename w Hname).
  destruct (load_document _ _) as [text|]; [|done].
  destruct (split_text text) as [chunks|]; [|done].
  rewrite create_embeddings_run. simpl. unfold embed_documents. rewrite Hfit. simpl.
  destruct (vectorizer_transform _ _); simpl; [|done].
  by destruct (summarize_pdf llm_handler text).
Qed.

(** X15: an ingestion that succeeds leaves the embeddings fitted, and from
    then on the same file under the same name is ingested to the same
    index in every state of the session, whatever was uploaded, deleted or
    said in between and whatever the handler then replies: the extraction,
    the chunks and the vectors are those of the first time, so the index
    written is the one written the first time and the embeddings stay as
    they are; the result is the success with the same page count, name and
    number of chunks and the summary of the new reply, or the error of the
    handler when its summary raises. *)
Theorem reingestion_reproduces_index (llm_handler later_handler : LLMHandler)
    (file filename : string) (w w' later : world)
    (summary : string) (page_count : nat) (pdf_name : string) (chunks_created : nat) :
  embeddings_ok (embeddings w) →
  process_document llm_handler file filename w =
    (Return (Success summary page_count pdf_name chunks_created), w') →
  embeddings later = embeddings w' →
  is_fitted (embeddings w') = true ∧
  ∃ text outcome later',
    process_document later_handler file filename later = (Return outcome, later') ∧
    load_vectorstore pdf_name later' = load_vectorstore pdf_name w' ∧
    embeddings later' = embeddings w' ∧
    summarize_pdf llm_handler text = Return summary ∧
    outcome =
      match summarize_pdf later_handler text with
      | Return summary' => Success summary' page_count pdf_name chunks_created
      | Raise e => Error (str e)
      end.
Proof.
  intros Hok Hrun Hlater.
  apply process_document_Success in Hrun
    as (text & chunks & vectors & e' & Hname & Hload & Hsplit & _ & Hembed & Hsum
        & -> & -> & -> & ->).
  apply embed_documents_Return in Hembed as (fitted & -> & -> & _); [|exact Hok].
  rewrite save_vectorstore_run in Hlater. rewrite !save_vectorstore_run.
  simpl in Hlater |- *. split; [done|].
  rewrite (process_document_run later_handler file filename later Hname).
  rewrite (load_document_ext _ _
             (set_uploads (λ files, <[sanitize_filename filename := file]> files) w)), Hload
    by (simpl; by rewrite !lookup_insert_eq).
  rewrite Hsplit, create_embeddings_run. simpl. rewrite Hlater. simpl.
  exists text.
  destruct (summarize_pdf later_handler text) as [summary'|e].
  - eexists _, _. split; [reflexivity|].
    rewrite !load_vectorstore_run. simpl. by rewrite !lookup_insert_eq.
  - eexists _, _. split; [reflexivity|].
    rewrite !load_vectorstore_run. simpl. by rewrite !lookup_insert_eq.
Qed.

(** X16: on a document name [delete_pdf] returns [True] and takes away
    what belongs to the document and nothing else.  Afterwards the
    document has no index (the validation of [query] fails,
    [load_vectorstore] returns [None]), no log and no staged file named by
    it with a suffix; the index directories and the logs of all other
    documents, the staged files whose names do not start with the name and
    a dot, and the embeddings are as before. *)
Theorem delete_pdf_removes_only_the_document (pdf_name stamp : string) (w : world) :
  document_name pdf_name →
  ∃ w',
    delete_pdf pdf_name stamp w = (Return true, w') ∧
    _validate_vectorstore pdf_name w' = false ∧
    load_vectorstore pdf_name w' = Return None ∧
    (pdf_name ∉ get_all_pdfs w') ∧
    (∀ name, glob_matches pdf_name name = true → uploads w' !! name = None) ∧
    (∀ name, glob_matches pdf_name name = false → uploads w' !! name = uploads w !! name) ∧
    (∀ other, other ≠ pdf_name →
       indexes w' !! other = indexes w !! other ∧
       history w' !! other = history w !! other) ∧
    embeddings w' = embeddings w.
Proof.
  intros _.
  eexists. split; [apply delete_pdf_run|]. simpl.
  split; [unfold _validate_vectorstore; simpl; by rewrite lookup_delete_eq|].
  split; [rewrite load_vectorstore_run; simpl; by rewrite lookup_delete_eq|].
  split; [rewrite elem_of_get_all_pdfs; simpl; rewrite lookup_delete_eq; by intros [? ?]|].
  split; [intros name Hmatch; by apply kept_uploads_lookup|].
  split.
  { intros name Hmatch. unfold kept_uploads.
    destruct (uploads w !! name) as [bytes|] eqn:Hname.
    - by apply map_lookup_filter_Some_2.
    - apply map_lookup_filter_None. by left. }
  split; [|done].
  intros other Hne. by rewrite !lookup_delete_ne.
Qed.

(** X23: what [load_document] returns is never blank: it is the text
    extracted from the bytes of the staged file, by the reader the lower
    case of the suffix of the name selects (PDF, plain text for [.txt] and
    [.md], DOCX).  Everything else, a suffix it does not know, a file that
    is missing, a reader that fails, a text of white space only, is raised
    as a [RuntimeError] that names the document. *)
Theorem load_document_outcomes (name : string) (w : world) :
  match load_document name w with
  | Return text =>
      is_blank text = false ∧
      names_upload_dir name = false ∧
      ∃ bytes,
        uploads w !! name = Some bytes ∧
        ((lower (path_suffix name) = ".pdf" ∧ pdf_text bytes = Return text) ∨
         (lower (path_suffix name) ∈ [".txt"; ".md"] ∧ text = decode_text bytes) ∨
         (lower (path_suffix name) = ".docx" ∧ docx_text bytes = Return text))
  | Raise e =>
      ∃ cause,
        e = RuntimeError ("Failed to load document " +:+ PDF_UPLOAD_DIR +:+ "/" +:+
                          name +:+ ": " +:+ cause)
  end.
Proof.
  unfold load_document, path_name.
  destruct (names_upload_dir name) eqn:Hname.
  { change (lower (path_suffix "")) with "". simpl. by eexists. }
  unfold _load_pdf, _load_text, _load_docx, read_upload. rewrite Hname.
  destruct (uploads w !! name) as [bytes|] eqn:Hbytes.
  2:{ repeat case_bool_decide; simpl; by eexists. }
  repeat case_bool_decide; simpl.
  - destruct (pdf_text bytes) as [text|] eqn:Hpdf; simpl; [|by eexists].
    destruct (is_blank text) eqn:Hblank; simpl; [by eexists|].
    do 2 (split; [done|]). exists bytes. split; [done|]. by left.
  - destruct (is_blank (decode_text bytes)) eqn:Hblank; simpl; [by eexists|].
    do 2 (split; [done|]). exists bytes. split; [done|]. right. by left.
  - destruct (docx_text bytes) as [text|] eqn:Hdocx; simpl; [|by eexists].
    destruct (is_blank text) eqn:Hblank; simpl; [by eexists|].
    do 2 (split; [done|]). exists bytes. split; [done|]. right. by right.
  - by eexists.
Qed.

End IngestionProperties.

(** ** The query pipeline *)

Section QueryFacts.
Context `{External}.

(** The two messages a question that was answered leaves in the log. *)
Lemma saved_saved (h h' : gmap string chat_data) (w : world) :
  saved h (saved h' w) = saved h w.
Proof. reflexivity. Qed.

(** The pipeline of [query] step by step: what it returns and the world it
    leaves at every place it can stop. *)
Lemma query_run (llm_handler : AnswerHandler) (pdf_name question : string)
    (now_user now_assistant : string) (w : world) :
  query llm_handler pdf_name question now_user now_assistant w =
  if negb (_validate_vectorstore pdf_name w) then
    (Return (no_answer "PDF not found or not processed yet."), w)
  else
    match load_vectorstore pdf_name w with
    | Raise e => (Return (no_answer ("Error processing question: " +:+ str e)), w)
    | Return None => (Return (no_answer "Failed to load PDF data."), w)
    | Return (Some store) =>
        match search (embeddings w) question store TOP_K_RESULTS with
        | Raise e => (Return (no_answer ("Error processing question: " +:+ str e)), w)
        | Return search_results =>
            match generate_answer llm_handler question (_prepare_context search_results) with
            | Raise e => (Return (no_answer ("Error processing question: " +:+ str e)), w)
            | Return response =>
                (Return {| answer := response_answer response;
                           sources := response_sources response;
                           context_used := _prepare_context search_results;
                           confidence := response_confidence response |},
                 saved
                   (with_message pdf_name
                      (Message "assistant" (response_answer response) now_assistant
                         (JObject
                            [("sources", JArray (JString <$> response_sources response));
                             ("confidence", JString (response_confidence response))]))
                      (with_message pdf_name
                         (Message "user" question now_user (JObject [])) (history w)))
                   w)
            end
        end
    end.
Proof.
  unfold query, try_except_action, mbind, action_bind, get, lift.
  destruct (negb (_validate_vectorstore pdf_name w)); [reflexivity|].
  destruct (load_vectorstore pdf_name w) as [[store|]|e]; [|reflexivity..].
  destruct (search (embeddings w) question store TOP_K_RESULTS) as [search_results|e];
    [|reflexivity].
  destruct (generate_answer llm_handler question (_prepare_context search_results))
    as [response|e]; [|reflexivity].
  rewrite add_message_run. cbn -[add_message saved with_message].
  rewrite add_message_run. reflexivity.
Qed.

(** A new process finds the disk of the one before, with embeddings that
    are not fitted. *)
Lemma new_session_disk (w : world) :
  indexes (new_session w) = indexes w ∧
  uploads (new_session w) = uploads w ∧
  embeddings (new_session w) = LightweightEmbeddings_init.
Proof. destruct w as [? ? [[logs|bytes]|] ? ? ? ? ? ? ?]; by repeat split. Qed.

End QueryFacts.

Section QueryProperties.
Context `{External}.

(** X17: [query] never raises, and a question is logged with its answer or
    not at all.  Either the handler answered: then the result carries its
    answer, sources and confidence with the context it was given, and the
    log of the document has grown by exactly the question and the answer,
    in this order; or the result has no sources, no context and
    confidence low, and the world, history and conversation file
    included, is as it was. *)
Theorem query_logs_both_or_nothing (llm_handler : AnswerHandler)
    (pdf_name question : string) (now_user now_assistant : string) (w : world) :
  ∃ result w',
    query llm_handler pdf_name question now_user now_assistant w = (Return result, w') ∧
    ((w' = w ∧ sources result = [] ∧ context_used result = "" ∧
      confidence result = "low") ∨
     (∃ response old,
        generate_answer llm_handler question (context_used result) = Return response ∧
        answer result = response_answer response ∧
        sources result = response_sources response ∧
        confidence result = response_confidence response ∧
        get_chat_history pdf_name 0 w = Return old ∧
        get_chat_history pdf_name 0 w' =
          Return (old ++
                  [Message "user" question now_user (JObject []);
                   Message "assistant" (answer result) now_assistant
                     (JObject
                        [("sources", JArray (JString <$> sources result));
                         ("confidence", JString (confidence result))])])%list ∧
        in_sync w')).
Proof.
  rewrite query_run.
  destruct (negb (_validate_vectorstore pdf_name w)); [eexists _, _; split; [done|by left]|].
  destruct (load_vectorstore pdf_name w) as [[store|]|e];
    [|eexists _, _; split; [done|by left]..].
  destruct (search (embeddings w) question store TOP_K_RESULTS) as [search_results|e];
    [|eexists _, _; split; [done|by left]].
  destruct (generate_answer llm_handler question (_prepare_context search_results))
    as [response|e] eqn:Hanswer; [|eexists _, _; split; [done|by left]].
  eexists _, _. split; [done|]. right. eexists response, _. simpl.
  split; [done|]. do 3 (split; [done|]).
  split; [apply get_chat_history_run|].
  split; [|done].
  rewrite get_chat_history_run. simpl. unfold with_message.
  rewrite !lookup_insert_eq. simpl. by rewrite <- app_assoc.
Qed.

(** X18: a question on a document that has no index directory, or an empty
    one, is answered with the words that the document is not found or not
    processed, with confidence low; the handler is not asked and nothing
    is logged. *)
Theorem query_without_index (llm_handler : AnswerHandler)
    (pdf_name question : string) (now_user now_assistant : string) (w : world) :
  indexes w !! pdf_name = None ∨ indexes w !! pdf_name = Some ∅ →
  query llm_handler pdf_name question now_user now_assistant w =
    (Return {| answer := "PDF not found or not processed yet.";
               sources := []; context_used := ""; confidence := "low" |},
     w).
Proof.
  intros Hnone. rewrite query_run.
  assert (_validate_vectorstore pdf_name w = false) as ->; [|done].
  unfold _validate_vectorstore. destruct Hnone as [-> | ->]; [done|].
  by apply bool_decide_eq_false_2; intros Hne.
Qed.

(** X19: after [delete_pdf] on a document name, a question on the deleted
    document gets the not-found answer, in every state and with every
    handler, and leaves the world as [delete_pdf] left it. *)
Theorem query_after_delete_pdf (llm_handler : AnswerHandler)
    (pdf_name question stamp : string) (now_user now_assistant : string) (w : world) :
  document_name pdf_name →
  let deleted := (delete_pdf pdf_name stamp w).2 in
  query llm_handler pdf_name question now_user now_assistant deleted =
    (Return (no_answer "PDF not found or not processed yet."), deleted).
Proof.
  intros _ deleted. rewrite query_run.
  assert (_validate_vectorstore pdf_name deleted = false) as ->; [|done].
  unfold deleted. rewrite delete_pdf_run. unfold _validate_vectorstore. simpl.
  by rewrite lookup_delete_eq.
Qed.

(** X20: the index of a document is kept on disk, the vocabulary it was
    built with is not.  In a new process every question on a document that
    was ingested before is answered with the error of the embeddings that
    are not fitted, whatever the handler, and nothing is logged, until a
    document is ingested in the new process. *)
Theorem query_in_new_session_fails (llm_handler : LLMHandler)
    (answers : AnswerHandler) (file filename : string) (w w' : world)
    (summary : string) (page_count : nat) (pdf_name : string) (chunks_created : nat)
    (question : string) (now_user now_assistant : string) :
  process_document llm_handler file filename w =
    (Return (Success summary page_count pdf_name chunks_created), w') →
  query answers pdf_name question now_user now_assistant (new_session w') =
    (Return (no_answer ("Error processing question: " +:+
                        "Failed to search vectorstore: Vectorizer not fitted yet")),
     new_session w').
Proof.
  intros Hrun.
  apply process_document_Success in Hrun
    as (text & chunks & vectors & e' & _ & _ & _ & _ & _ & _ & _ & _ & _ & ->).
  rewrite save_vectorstore_run, query_run. cbn [snd].
  set (disk := set_indexes _ _).
  destruct (new_session_disk disk) as (Hidx & _ & Hemb).
  unfold _validate_vectorstore. rewrite load_vectorstore_run, Hidx, Hemb.
  unfold disk. simpl. rewrite !lookup_insert_eq.
  rewrite bool_decide_eq_true_2 by apply insert_non_empty. simpl.
  reflexivity.
Qed.

End QueryProperties.

Section QueryAfterIngestion.
Context `{External} `{!ExternalLaws}.

(** X21: in the session that ingested a document, a question on it reaches
    the handler: the search returns the [TOP_K_RESULTS] best chunks (all of
    them when the document has fewer), the handler is given the context
    made of these chunks, and when it answers, [query] returns its answer
    with that context and logs the question and the answer. *)
Theorem query_after_ingestion_answers (llm_handler : LLMHandler)
    (answers : AnswerHandler) (file filename : string) (w w' : world)
    (summary : string) (page_count : nat) (pdf_name : string) (chunks_created : nat)
    (question : string) (now_user now_assistant : string) :
  embeddings_ok (embeddings w) →
  process_document llm_handler file filename w =
    (Return (Success summary page_count pdf_name chunks_created), w') →
  ∃ store search_results,
    load_vectorstore pdf_name w' = Return (Some store) ∧
    search (embeddings w') question store TOP_K_RESULTS = Return search_results ∧
    length search_results = 4 `min` chunks_created ∧
    match generate_answer answers question (_prepare_context search_results) with
    | Return response =>
        ∃ w'',
          query answers pdf_name question now_user now_assistant w' =
            (Return {| answer := response_answer response;
                       sources := response_sources response;
                       context_used := _prepare_context search_results;
                       confidence := response_confidence response |},
             w'') ∧
          total_messages <$> get_statistics pdf_name w'' =
            (λ s, 2 + total_messages s) <$> get_statistics pdf_name w'
    | Raise e =>
        query answers pdf_name question now_user now_assistant w' =
          (Return (no_answer ("Error processing question: " +:+ str e)), w')
    end.
Proof.
  intros Hok Hrun.
  pose proof Hrun
    as (text & chunks & vectors & e' & _ & _ & _ & Hchunks & Hembed & _ & _ & _ & -> & Hw')
         %process_document_Success.
  assert (create_embeddings chunks
            (set_uploads (λ files, <[sanitize_filename filename := file]> files) w) =
          (Return {| vectors := vectors; texts := chunks |},
           set_last vectors chunks
             (set_embeddings e'
                (set_uploads (λ files, <[sanitize_filename filename := file]> files) w))))
    as Hcreate.
  { rewrite create_embeddings_run. simpl. by rewrite Hembed. }
  assert (embeddings_ok (embeddings
            (set_uploads (λ files, <[sanitize_filename filename := file]> files) w)))
    as Hok' by exact Hok.
  destruct (created_index_searchable chunks _ _ _ question Hchunks Hok' Hcreate)
    as (query_vector & Hquery & Hlen & Hcompat).
  assert (embeddings w' = e') as Hemb by (by rewrite Hw', save_vectorstore_run).
  simpl in Hquery. rewrite <- Hemb in Hquery.
  destruct (search_returns _ _ _ TOP_K_RESULTS _ Hquery Hlen Hcompat)
    as [search_results Hsearch].
  assert (load_vectorstore pdf_name w' =
          Return (Some {| vectors := vectors; texts := chunks |})) as Hload.
  { rewrite Hw', save_vectorstore_run, load_vectorstore_run. simpl.
    by rewrite !lookup_insert_eq. }
  assert (_validate_vectorstore pdf_name w' = true) as Hvalid.
  { rewrite Hw', save_vectorstore_run. unfold _validate_vectorstore. simpl.
    rewrite lookup_insert_eq. apply bool_decide_eq_true_2, insert_non_empty. }
  exists {| vectors := vectors; texts := chunks |}, search_results.
  split; [exact Hload|]. split; [exact Hsearch|].
  split.
  { pose proof Hsearch as (q & _ & _ & Hhits)%search_Return.
    rewrite <- (Forall2_length _ _ _ Hhits). unfold top_indices, py_slice_to, TOP_K_RESULTS.
    change (0 <=? 4)%Z with true. cbv iota.
    rewrite length_take, length_reverse, argsort_Permutation, length_seq, length_fmap.
    rewrite <- Hlen. reflexivity. }
  pose proof (query_run answers pdf_name question now_user now_assistant w') as Hq.
  rewrite Hvalid, Hload, Hsearch in Hq. simpl in Hq.
  destruct (generate_answer answers question (_prepare_context search_results))
    as [response|e]; [|exact Hq].
  eexists. split; [exact Hq|].
  rewrite !get_statistics_run. simpl. unfold with_message.
  rewrite !lookup_insert_eq. simpl. f_equal.
  rewrite !length_app. simpl. lia.
Qed.

End QueryAfterIngestion.

(** ** File names *)

Section StringFacts.

Lemma chars_of_chars (l : list ascii) : chars (of_chars l) = l.
Proof. apply list_ascii_of_string_of_list_ascii. Qed.

Lemma of_chars_chars (s : string) : of_chars (chars s) = s.
Proof. apply string_of_list_ascii_of_string. Qed.

Lemma chars_app (s1 s2 : string) : chars (s1 +:+ s2) = (chars s1 ++ chars s2)%list.
Proof. induction s1 as [|c s1 IH]; [done|]. simpl. by rewrite <- IH. Qed.

(** [rfind_from] finds the last place of the character. *)
Lemma rfind_from_None (c : ascii) (l : list ascii) (i : nat) :
  rfind_from c l i = None → c ∉ l.
Proof.
  revert i. induction l as [|x l IH]; intros i; simpl; [intros _; apply not_elem_of_nil|].
  destruct (rfind_from c l (S i)) eqn:Hrest; [discriminate|].
  destruct (Ascii.eqb x c) eqn:Hx; [discriminate|]. intros _.
  apply Ascii.eqb_neq in Hx. apply not_elem_of_cons. split; [done|]. by eapply IH.
Qed.

Lemma rfind_from_Some (c : ascii) (l : list ascii) (i j : nat) :
  rfind_from c l i = Some j →
  ∃ k, j = i + k ∧ l !! k = Some c ∧ c ∉ drop (S k) l.
Proof.
  revert i. induction l as [|x l IH]; intros i; simpl; [discriminate|].
  destruct (rfind_from c l (S i)) as [j'|] eqn:Hrest.
  - intros [= ->]. destruct (IH _ Hrest) as (k & -> & Hk & Hafter).
    exists (S k). split; [lia|]. by split.
  - destruct (Ascii.eqb x c) eqn:Hx; [|discriminate]. intros [= ->].
    apply Ascii.eqb_eq in Hx as ->. exists 0. split; [lia|]. split; [done|].
    simpl. rewrite drop_0. by eapply rfind_from_None.
Qed.

Lemma rfind_from_not_elem (c : ascii) (l : list ascii) (i : nat) :
  c ∉ l → rfind_from c l i = None.
Proof.
  revert i. induction l as [|x l IH]; intros i Hnot; simpl; [done|].
  apply not_elem_of_cons in Hnot as [Hne Hnot]. rewrite IH by done.
  by rewrite (proj2 (Ascii.eqb_neq x c)).
Qed.

Lemma rfind_from_last (c : ascii) (l : list ascii) (i k : nat) :
  l !! k = Some c → c ∉ drop (S k) l → rfind_from c l i = Some (i + k).
Proof.
  revert i k. induction l as [|x l IH]; intros i k Hk Hafter; [done|].
  destruct k as [|k]; simpl in *.
  - injection Hk as ->. rewrite drop_0 in Hafter.
    rewrite rfind_from_not_elem by done. rewrite Ascii.eqb_refl. f_equal. lia.
  - rewrite (IH (S i) k) by done. f_equal. lia.
Qed.

Lemma rfind_last (c : ascii) (front back : list ascii) :
  c ∉ back → rfind c (front ++ c :: back) = Some (length front).
Proof.
  intros Hnot. unfold rfind. rewrite (rfind_from_last c _ 0 (length front)); [done| |].
  - by rewrite list_lookup_middle.
  - replace (front ++ c :: back)%list with ((front ++ [c]) ++ back)%list
      by (by rewrite <- app_assoc).
    replace (S (length front)) with (length (front ++ [c])%list)
      by (rewrite length_app; simpl; lia).
    by rewrite drop_app_length.
Qed.

Lemma String_length_chars (s : string) : String.length s = length (chars s).
Proof. induction s as [|c s IH]; [done|]. simpl. by rewrite IH. Qed.

Lemma lower_of_chars (l : list ascii) : lower (of_chars l) = of_chars (lower_char <$> l).
Proof. unfold lower. by rewrite chars_of_chars. Qed.

Lemma rfind_Some (c : ascii) (l : list ascii) (j : nat) :
  rfind c l = Some j → l !! j = Some c ∧ c ∉ drop (S j) l.
Proof. intros (k & -> & Hk)%rfind_from_Some. exact Hk. Qed.

End StringFacts.

Section SanitizeFacts.

Lemma elem_of_drop_list {A} (x : A) (n : nat) (l : list A) : x ∈ drop n l → x ∈ l.
Proof. intros Hin. rewrite <- (take_drop n l). apply elem_of_app. by right. Qed.

Lemma Forall_suffix_of {A} (P : A → Prop) (l1 l2 : list A) :
  l1 `suffix_of` l2 → Forall P l2 → Forall P l1.
Proof. intros [k ->] Hall. by apply Forall_app in Hall as [_ ?]. Qed.

(** [re.sub] of the runs of white space leaves the other characters and
    single spaces. *)
Lemma collapse_spaces_chars (P : ascii → Prop) (after_space : bool) (l : list ascii) :
  Forall (λ c, is_space c = false → P c) l →
  Forall (λ c, P c ∨ c = " "%char) (collapse_spaces after_space l).
Proof.
  intros Hall. revert after_space.
  induction Hall as [|c l Hc _ IH]; intros after_space; simpl; [done|].
  destruct (is_space c); [destruct after_space|]; auto.
Qed.

Lemma drop_spaces_suffix (l : list ascii) : drop_spaces l `suffix_of` l.
Proof.
  induction l as [|c l IH]; simpl; [done|].
  destruct (is_space c); [by apply suffix_cons_r|done].
Qed.

Lemma strip_chars_chars (P : ascii → Prop) (l : list ascii) :
  Forall P l → Forall P (strip_chars l).
Proof.
  intros Hall. unfold strip_chars. apply Forall_reverse.
  eapply Forall_suffix_of; [apply drop_spaces_suffix|]. apply Forall_reverse.
  eapply Forall_suffix_of; [apply drop_spaces_suffix|]. exact Hall.
Qed.

(** The extension [os.path.splitext] splits off is empty, or a dot and
    characters that are neither dots nor separators. *)
Lemma splitext_ext (p : string) :
  (splitext p).2 = "" ∨
  ∃ rest, chars (splitext p).2 = "."%char :: rest ∧
          ("."%char ∉ rest) ∧ ("/"%char ∉ rest).
Proof.
  unfold splitext. destruct (rfind "." (chars p)) as [dot|] eqn:Hdot; [|by left].
  destruct (_ && _) eqn:Hcond; [|by left]. right.
  apply andb_true_iff in Hcond as [Hstart _]. apply bool_decide_eq_true in Hstart.
  apply rfind_Some in Hdot as [Hdot Hafter].
  exists (drop (S dot) (chars p)). simpl. rewrite chars_of_chars.
  split; [by erewrite drop_S|]. split; [done|].
  destruct (rfind "/" (chars p)) as [sep|] eqn:Hsep.
  - apply rfind_Some in Hsep as [_ Hsep]. intros Hin. apply Hsep.
    replace (S dot) with (S sep + (S dot - S sep)) in Hin by lia.
    rewrite <- drop_drop in Hin. by eapply elem_of_drop_list.
  - apply rfind_from_None in Hsep. intros Hin. apply Hsep. by eapply elem_of_drop_list.
Qed.

(** The stem [sanitize_filename] builds from the name without its
    extension. *)
Lemma sanitized_stem_chars (name : list ascii) :
  Forall (λ c, stem_char c = true)
    (take 100
       ((λ c, if Ascii.eqb c " " then "_"%char else c) <$>
        strip_chars
          (collapse_spaces false
             (filter (λ c, is_alnum c || is_space c || Ascii.eqb c "-" || Ascii.eqb c "_" = true)
                name)))).
Proof.
  apply Forall_take, Forall_fmap.
  eapply Forall_impl;
    [apply (strip_chars_chars (λ c, stem_char c = true ∨ c = " "%char)),
           (collapse_spaces_chars (λ c, stem_char c = true))|].
  - apply Forall_forall. intros c [Hc _]%list_elem_of_filter Hspace.
    unfold stem_char. revert Hc. rewrite Hspace. by rewrite orb_false_r.
  - intros c [Hc| ->]; simpl; [|done].
    destruct (Ascii.eqb c " ") eqn:Heq; [done|exact Hc].
Qed.

Lemma stem_char_plain (c : ascii) :
  stem_char c = true → c ≠ "/"%char ∧ c ≠ "."%char.
Proof. intros Hc. split; intros ->; discriminate Hc. Qed.

(** The two parts of the name [sanitize_filename] returns. *)
Lemma sanitize_filename_parts (filename : string) :
  ∃ stem,
    sanitize_filename filename = of_chars stem +:+ (splitext filename).2 ∧
    (length stem ≤ 100)%nat ∧
    Forall (λ c, stem_char c = true) stem.
Proof.
  unfold sanitize_filename. destruct (splitext filename) as [name ext].
  eexists. split; [reflexivity|]. split; [rewrite length_take; lia|].
  apply sanitized_stem_chars.
Qed.

(** X22: the name [sanitize_filename] returns is the sanitized stem
    followed by the extension of the given name as [os.path.splitext]
    splits it off.  The stem has 100 characters at most, all of them
    letters, digits, hyphens or underscores; the extension is not
    cleaned, but it holds no separator and no second dot.  So the name has
    no separator and is not the parent directory: a file staged under it
    lies in the upload directory. *)
Theorem sanitize_filename_safe (filename : string) :
  ∃ stem,
    sanitize_filename filename = of_chars stem +:+ (splitext filename).2 ∧
    (length stem ≤ 100)%nat ∧
    Forall (λ c, stem_char c = true) stem ∧
    ("/"%char ∉ chars (sanitize_filename filename)) ∧
    sanitize_filename filename ≠ "..".
Proof.
  destruct (sanitize_filename_parts filename) as (stem & Hname & Hlen & Hstem).
  exists stem. do 3 (split; [done|]). rewrite Hname.
  pose proof (splitext_ext filename) as Hext.
  assert (("/"%char ∉ stem) ∧ ("."%char ∉ stem)) as [Hslash Hdot].
  { split; intros Hin; eapply Forall_forall in Hstem; try exact Hin;
      by apply stem_char_plain in Hstem as [? ?]. }
  split.
  - rewrite chars_app, chars_of_chars, elem_of_app. intros [Hin|Hin]; [done|].
    destruct Hext as [Hext | (rest & Hrest & _ & Hno)].
    + rewrite Hext in Hin. by apply elem_of_nil in Hin.
    + rewrite Hrest in Hin. apply elem_of_cons in Hin as [Hin|Hin]; [discriminate|done].
  - intros Heq. apply (f_equal chars) in Heq.
    rewrite chars_app, chars_of_chars in Heq. simpl in Heq.
    destruct stem as [|c stem'].
    + destruct Hext as [Hext | (rest & Hrest & Hno & _)].
      * rewrite Hext in Heq. discriminate.
      * simpl in Heq. rewrite Hrest in Heq. injection Heq as ->.
        apply Hno. by left.
    + injection Heq as -> _. apply Hdot. by left.
Qed.

End SanitizeFacts.

Section UploadChecks.
Context `{External}.

Lemma lower_char_dot (c : ascii) : lower_char c = "."%char → c = "."%char.
Proof. destruct c as [[] [] [] [] [] [] [] []]; by compute. Qed.

(** The suffix of a sanitized name that has neither a stem nor an
    extension to show is empty. *)
Lemma sanitized_without_suffix (name : string) :
  (splitext name).2 = "" ∨ sanitize_filename name = (splitext name).2 →
  path_suffix (sanitize_filename name) = "".
Proof.
  intros Hcase.
  destruct (sanitize_filename_parts name) as (stem & Hname & _ & Hstem).
  assert ("."%char ∉ stem) as Hdot.
  { intros Hin. eapply Forall_forall in Hstem; [|exact Hin].
    by apply stem_char_plain in Hstem as [_ ?]. }
  unfold path_suffix, suffix_at.
  destruct (splitext_ext name) as [Hext | (rest & Hrest & Hno & _)].
  - rewrite Hname, Hext, chars_app, chars_of_chars. simpl. rewrite app_nil_r.
    unfold rfind. by rewrite rfind_from_not_elem.
  - destruct Hcase as [Hext | Hsame]; [rewrite Hext in Hrest; discriminate|].
    pose proof (rfind_last "." [] rest Hno) as Hfind. simpl in Hfind.
    rewrite Hsame, Hrest, Hfind.
    by rewrite bool_decide_eq_false_2 by lia.
Qed.

(** X24: a file [validate_pdf] accepts is accepted by
    [validate_document], the check the upload runs: both ask for a size
    above zero and of 50 MB at most, and a name that ends in [.pdf], in
    any case of the letters, has the type [.pdf]. *)
Theorem validate_pdf_implies_validate_document (name : string) (size : nat) :
  (validate_pdf name size).1 = true →
  validate_document name size = (true, "Valid document file") ∧
  (0 < size ≤ MAX_UPLOAD_SIZE)%nat.
Proof.
  unfold validate_pdf, validate_document.
  destruct (endswith (lower name) ".pdf") eqn:Hpdf; simpl; [|discriminate].
  assert ("." +:+ lower (last_part name) = ".pdf") as ->.
  { unfold endswith in Hpdf. apply bool_decide_eq_true in Hpdf as [front Hfront].
    unfold lower in Hfront. rewrite chars_of_chars in Hfront. simpl in Hfront.
    apply fmap_app_inv in Hfront as (front' & back & _ & Hback & Hname).
    destruct back as [|c1 [|c2 [|c3 [|c4 [|]]]]]; try discriminate.
    injection Hback as H1 H2 H3 H4. symmetry in H1. apply lower_char_dot in H1 as ->.
    unfold last_part. rewrite Hname, rfind_last.
    - replace (front' ++ ["."%char; c2; c3; c4])%list
        with ((front' ++ ["."%char]) ++ [c2; c3; c4])%list by (by rewrite <- app_assoc).
      replace (S (length front')) with (length (front' ++ ["."%char])%list)
        by (rewrite length_app; simpl; lia).
      rewrite drop_app_length, lower_of_chars. simpl. by rewrite <- H2, <- H3, <- H4.
    - intros Hin. repeat (apply elem_of_cons in Hin as [<-|Hin]; [discriminate|]).
      by apply elem_of_nil in Hin. }
  simpl. destruct (Nat.ltb_spec MAX_UPLOAD_SIZE size); simpl; [discriminate|].
  destruct (Nat.eqb_spec size 0); simpl; [discriminate|]. intros _. split; [done|lia].
Qed.

(** X25: a name [validate_document] accepts, that has an extension for
    [os.path.splitext] and keeps a character of its stem when it is
    sanitized, is staged under a name whose suffix is, in lower case, the
    type that was validated: [load_document] reads it with the reader of
    that type. *)
Theorem validated_name_keeps_its_type (name : string) (size : nat) :
  (validate_document name size).1 = true →
  (splitext name).2 ≠ "" →
  sanitize_filename name ≠ (splitext name).2 →
  lower (path_suffix (sanitize_filename name)) = "." +:+ lower (last_part name) ∧
  lower (path_suffix (sanitize_filename name)) ∈ allowed_types ∧
  names_upload_dir (sanitize_filename name) = false.
Proof.
  intros Hvalid Hext Hstem.
  assert ("." +:+ lower (last_part name) ∈ allowed_types) as Hallowed.
  { unfold validate_document in Hvalid. by case_bool_decide. }
  destruct (sanitize_filename_parts name) as (stem & Hname & _ & Hchars).
  assert ("."%char ∉ stem) as Hdot.
  { intros Hin. eapply Forall_forall in Hchars; [|exact Hin].
    by apply stem_char_plain in Hchars as [_ ?]. }
  assert (stem ≠ []) as Hne.
  { intros ->. apply Hstem. by rewrite Hname. }
  assert (∃ rest, chars (splitext name).2 = "."%char :: rest ∧ ("."%char ∉ rest) ∧
                  last_part name = of_chars rest) as (rest & Hrest & Hno & Hlast).
  { unfold splitext, last_part in *.
    destruct (rfind "." (chars name)) as [dot|] eqn:Hfind; [|done].
    destruct (_ && _); [|done]. simpl in *.
    apply rfind_Some in Hfind as [Hfind Hafter].
    exists (drop (S dot) (chars name)). rewrite chars_of_chars.
    split; [by erewrite drop_S|]. by split. }
  assert (rest ≠ []) as Hrest_ne.
  { intros ->. rewrite Hlast, lower_of_chars in Hallowed. unfold allowed_types in Hallowed.
    repeat (apply elem_of_cons in Hallowed as [?|Hallowed]; [discriminate|]).
    by apply elem_of_nil in Hallowed. }
  assert (chars (sanitize_filename name) = (stem ++ "."%char :: rest)%list) as Hsafe.
  { by rewrite Hname, chars_app, chars_of_chars, Hrest. }
  assert (path_suffix (sanitize_filename name) = of_chars ("."%char :: rest)) as Hsuffix.
  { unfold path_suffix, suffix_at. rewrite String_length_chars, Hsafe, rfind_last by done.
    rewrite bool_decide_eq_true_2.
    - by rewrite drop_app_length.
    - rewrite length_app. simpl. destruct stem, rest; simpl; try done; lia. }
  assert (lower (path_suffix (sanitize_filename name)) = "." +:+ lower (last_part name))
    as Hlower.
  { by rewrite Hsuffix, Hlast, !lower_of_chars. }
  split; [exact Hlower|]. split; [by rewrite Hlower|].
  unfold names_upload_dir. apply bool_decide_eq_false_2.
  intros [Heq|Heq]; apply (f_equal chars) in Heq; rewrite Hsafe in Heq;
    destruct stem as [|? [|]]; done.
Qed.


(** [load_document] returns only for a name whose suffix is a known
    type. *)
Lemma load_document_suffix (name : string) (w : world) (text : string) :
  load_document name w = Return text →
  lower (path_suffix (path_name name)) ∈ allowed_types.
Proof.
  unfold load_document, allowed_types.
  case_bool_decide as Hpdf; [intros _; rewrite Hpdf; by left|].
  case_bool_decide as Htext.
  { intros _. revert Htext. rewrite !elem_of_cons. intros [->| [->|Hnil]].
    - right. by left.
    - do 2 right. by left.
    - by apply elem_of_nil in Hnil. }
  case_bool_decide as Hdocx; [intros _; rewrite Hdocx; do 3 right; by left|].
  discriminate.
Qed.

(** X30: a successful ingestion names its document by a document name: the
    sanitized file name is that name followed by the extension, the name
    is not empty and holds only letters, digits, hyphens and underscores,
    and the extension is, in lower case, one of the known types.  So
    [delete_pdf] and [query] are called on document names whenever they
    are called on a document that was ingested. *)
Theorem ingested_document_has_document_name (llm_handler : LLMHandler)
    (file filename : string) (w w' : world)
    (summary : string) (page_count : nat) (pdf_name : string) (chunks_created : nat) :
  process_document llm_handler file filename w =
    (Return (Success summary page_count pdf_name chunks_created), w') →
  document_name pdf_name ∧
  sanitize_filename filename = pdf_name +:+ (splitext filename).2 ∧
  lower (splitext filename).2 ∈ allowed_types.
Proof.
  intros Hrun.
  apply process_document_Success in Hrun
    as (text & chunks & vectors & e' & Hfile & Hload & _ & _ & _ & _ & _ & -> & _ & _).
  apply load_document_suffix in Hload. unfold path_name in *. rewrite Hfile in *.
  destruct (sanitize_filename_parts filename) as (stem & Hname & _ & Hchars).
  assert ("."%char ∉ stem) as Hdot.
  { intros Hin. eapply Forall_forall in Hchars; [|exact Hin].
    by apply stem_char_plain in Hchars as [_ ?]. }
  assert (path_suffix (sanitize_filename filename) ≠ "") as Hsuffix.
  { intros Heq. rewrite Heq in Hload. unfold allowed_types in Hload.
    repeat (apply elem_of_cons in Hload as [?|Hload]; [discriminate|]).
    by apply elem_of_nil in Hload. }
  destruct (splitext_ext filename) as [Hext | (rest & Hrest & Hno & _)].
  { exfalso. apply Hsuffix, sanitized_without_suffix. by left. }
  assert (stem ≠ []) as Hstem.
  { intros ->. apply Hsuffix, sanitized_without_suffix. right. by rewrite Hname. }
  assert (chars (sanitize_filename filename) = (stem ++ "."%char :: rest)%list) as Hsafe.
  { by rewrite Hname, chars_app, chars_of_chars, Hrest. }
  assert (suffix_at (sanitize_filename filename) = Some (length stem)) as Hat.
  { revert Hsuffix. unfold path_suffix, suffix_at.
    rewrite Hsafe, rfind_last by done. by case_bool_decide. }
  assert (path_stem (sanitize_filename filename) = of_chars stem) as Hpstem.
  { unfold path_stem. by rewrite Hat, Hsafe, take_app_length. }
  assert (path_suffix (sanitize_filename filename) = (splitext filename).2) as Hpsuffix.
  { unfold path_suffix. rewrite Hat, Hsafe, drop_app_length, <- Hrest.
    apply of_chars_chars. }
  rewrite Hpstem. split; [|split].
  - split.
    + intros Heq. apply (f_equal chars) in Heq. rewrite chars_of_chars in Heq. done.
    + by rewrite chars_of_chars.
  - exact Hname.
  - by rewrite <- Hpsuffix.
Qed.

End UploadChecks.

(** ** The handlers and the reading time *)

Section HandlerProperties.

(** X27: [generate_answer] of the OpenRouter and OpenAI handlers never
    raises and never falls off its loop: it returns a dictionary in every
    case.  It asks the service three times at most and returns the parsed
    answer of the first attempt that succeeds; when all three fail it
    returns the error of the third as the answer, with no sources and
    confidence low. *)
Theorem generate_answer_three_attempts
    (request_answer : nat → string → string → result string)
    (_parse_response : string → string → llm_response) (query context : string) :
  ∃ response,
    OpenRouterLLMHandler.generate_answer request_answer _parse_response query context =
      Some response ∧
    response =
      match request_answer 0 query context with
      | Return answer_text => _parse_response answer_text context
      | Raise _ =>
          match request_answer 1 query context with
          | Return answer_text => _parse_response answer_text context
          | Raise _ =>
              match request_answer 2 query context with
              | Return answer_text => _parse_response answer_text context
              | Raise e =>
                  {| response_answer := "Error generating response: " +:+ str e;
                     response_sources := [];
                     response_confidence := "low" |}
              end
          end
      end.
Proof.
  unfold OpenRouterLLMHandler.generate_answer. simpl.
  destruct (request_answer 0 query context); [by eexists|].
  destruct (request_answer 1 query context); [by eexists|].
  destruct (request_answer 2 query context); by eexists.
Qed.

Lemma py_round_ratio_250 (n : nat) :
  let t := py_round_ratio n 250 in
  (250 * t ≤ n + 125)%nat ∧ (n ≤ 250 * t + 125)%nat ∧
  (n mod 250 = 125 → Nat.even t = true).
Proof.
  unfold py_round_ratio.
  pose proof (Nat.div_mod_eq n 250) as Hn.
  pose proof (Nat.mod_upper_bound n 250 ltac:(lia)) as Hr.
  set (q := n / 250) in *. set (r := n mod 250) in *. clearbody q r. cbv zeta.
  destruct (Nat.ltb_spec (2 * r) 250); [lia|].
  destruct (Nat.ltb_spec 250 (2 * r)); [lia|].
  destruct (Nat.even q) eqn:Heven.
  - split; [lia|]. split; [lia|done].
  - split; [lia|]. split; [lia|]. intros _. rewrite Nat.even_succ.
    by rewrite <- Nat.negb_even, Heven.
Qed.

(** X28: the reading time is the number of words over 250, rounded to the
    nearest minute, a half to the even minute, and one minute at least.
    So it is one minute for every text of up to 374 words, it differs from
    the exact quotient by half a minute at most once a text has 125 words,
    and a text with more words never gets a shorter time. *)
Theorem calculate_reading_time_rounds (text longer : string) :
  let words := count_words false (chars text) in
  let minutes := calculate_reading_time text in
  (1 ≤ minutes)%nat ∧
  ((words ≤ 374)%nat → minutes = 1) ∧
  ((125 ≤ words)%nat →
   (250 * minutes ≤ words + 125)%nat ∧ (words ≤ 250 * minutes + 125)%nat) ∧
  ((words ≤ count_words false (chars longer))%nat →
   (minutes ≤ calculate_reading_time longer)%nat).
Proof.
  intros words minutes. unfold minutes, calculate_reading_time. fold words.
  set (more := count_words false (chars longer)).
  destruct (py_round_ratio_250 words) as (Hup & Hdown & Heven).
  destruct (py_round_ratio_250 more) as (Hup' & Hdown' & Heven').
  set (t := py_round_ratio words 250) in *. set (t' := py_round_ratio more 250) in *.
  split; [lia|]. split; [|split].
  - intros Hwords. lia.
  - lia.
  - intros Hle.
    assert (t ≤ t')%nat; [|lia].
    destruct (decide (t ≤ t')%nat) as [|Hgt]; [done|].
    assert (t = S t' ∧ words = more ∧ words = 250 * t' + 125) as (Ht & Hsame & Hhalf) by lia.
    exfalso.
    assert (words mod 250 = 125) as Hmod.
    { rewrite Hhalf, Nat.add_comm, Nat.mul_comm, Nat.Div0.mod_add. done. }
    pose proof (Heven Hmod) as He. rewrite Hsame in Hmod. pose proof (Heven' Hmod) as He'.
    rewrite Ht, Nat.even_succ, <- Nat.negb_even, He' in He. done.
Qed.

End HandlerProperties.

(** ** The further properties on the reference instance *)

Section SessionExamples.
Import QArith Reference Examples Worlds Sessions.
#[local] Close Scope Q_scope.

(** The new session of X5 on the store with a question and its answer. *)
Lemma history_survives_new_session_two_messages :
  in_sync with_two_messages ∧
  (history (new_session with_two_messages) = history with_two_messages ∧
   (∀ pdf_name limit,
      get_chat_history pdf_name limit (new_session with_two_messages) =
      get_chat_history pdf_name limit with_two_messages) ∧
   get_all_pdfs (new_session with_two_messages) = get_all_pdfs with_two_messages ∧
   in_sync (new_session with_two_messages) ∧
   is_fitted (embeddings (new_session with_two_messages)) = false).
Proof.
  split; [split; reflexivity|].
  apply (history_survives_new_session with_two_messages). split; reflexivity.
Defined.

(** The two clears of X8 within one second on the store with a question
    and its answer: the backup that is left holds no message. *)
Lemma clear_history_same_stamp_overwrites_two_messages :
  chat_history_json with_two_messages = Some (JsonDoc (history with_two_messages)) ∧
  let w1 := (clear_history None "20240501_100002" with_two_messages).2 in
  let w2 := (clear_history None "20240501_100002" w1).2 in
  chat_history_backups w1 !! "20240501_100002" = Some (JsonDoc (history with_two_messages)) ∧
  chat_history_backups w2 !! "20240501_100002" = Some (JsonDoc (history w1)) ∧
  (∀ other, other ≠ "20240501_100002" →
     chat_history_backups w2 !! other = chat_history_backups with_two_messages !! other).
Proof.
  split; [reflexivity|].
  apply (clear_history_same_stamp_overwrites None None "20240501_100002"
           with_two_messages (JsonDoc (history with_two_messages))).
  reflexivity.
Defined.

(** The search of X9 for the best of the two chunks about the cat. *)
Lemma search_returns_highest_scores_cats :
  search cats_embeddings "cat" cats_store 1 = Return [("cat ran", 1 # 3)%Q] ∧
  ∃ query_vector selected,
    embed_query cats_embeddings "cat" = Return query_vector ∧
    NoDup selected ∧
    Forall2 (λ idx hit,
               texts cats_store !! idx = Some hit.1 ∧
               (cosine query_vector <$> vectors cats_store) !! idx = Some hit.2)
      selected [("cat ran", 1 # 3)%Q] ∧
    ∀ idx, idx ∉ selected →
      Forall (λ hit,
                from_option (λ score, float_leb score hit.2) true
                  ((cosine query_vector <$> vectors cats_store) !! idx) = true)
        [("cat ran", 1 # 3)%Q].
Proof.
  split; [reflexivity|].
  apply (search_returns_highest_scores cats_embeddings "cat" cats_store 1
           [("cat ran", 1 # 3)%Q]).
  reflexivity.
Defined.

(** The search of X10 on the two chunks with [k = -1]. *)
Lemma search_negative_k_drops_lowest_cats :
  (embed_query cats_embeddings "cat" = Return cat_query_vector ∧
   length (texts cats_store) = length (vectors cats_store) ∧
   compatible cat_query_vector cats_store ∧
   (-1 < 0)%Z) ∧
  ∃ results,
    search cats_embeddings "cat" cats_store (-1) = Return results ∧
    length results = length (texts cats_store) - Z.to_nat (- -1) ∧
    non_increasing results.*2.
Proof.
  split.
  - split; [reflexivity|]. split; [reflexivity|]. split; [exact cats_compatible|lia].
  - apply (search_negative_k_drops_lowest cats_embeddings "cat" cats_store (-1)
             cat_query_vector); [reflexivity | reflexivity | exact cats_compatible | lia].
Defined.

(** The search of X11 on the two chunks. *)
Lemma search_returns_exactly_when_cats :
  ((∃ results, search cats_embeddings "cat" cats_store 2 = Return results) ↔
   ∃ query_vector,
     embed_query cats_embeddings "cat" = Return query_vector ∧
     compatible query_vector cats_store ∧
     Forall (λ idx, idx < length (texts cats_store))
       (top_indices (cosine query_vector <$> vectors cats_store) 2)) ∧
  (∀ e, search cats_embeddings "cat" cats_store 2 = Raise e →
     ∃ cause, e = RuntimeError ("Failed to search vectorstore: " +:+ cause)).
Proof. exact (search_returns_exactly_when cats_embeddings "cat" cats_store 2). Defined.

(** The document of X12: none of its terms is in the vocabulary fitted on
    the chunks about the cat, and both its chunks score 0. *)
Lemma chunks_of_unknown_terms_score_alike_pets :
  (Forall (λ chunk, Forall (λ t, t ∉ vocabulary_ cats_vectorizer) (analyze chunk))
     pets_chunks ∧
   search cats_embeddings "cat"
     {| vectors := sk_transform cats_vectorizer pets_chunks; texts := pets_chunks |} 2 =
     Return [("bird flew", 0%Q); ("dog barked", 0%Q)]) ∧
  (Forall (λ row, row = tfidf_row (idf_ cats_vectorizer)
                          (count_row (vocabulary_ cats_vectorizer) []))
     (sk_transform cats_vectorizer pets_chunks) ∧
   ∃ score, Forall (λ hit, hit.2 = score) [("bird flew", 0%Q); ("dog barked", 0%Q)]).
Proof.
  assert (Forall (λ chunk, Forall (λ t, t ∉ vocabulary_ cats_vectorizer) (analyze chunk))
            pets_chunks) as Hunknown.
  { apply (bool_decide_unpack _). by compute. }
  split; [split; [exact Hunknown|reflexivity]|].
  apply (chunks_of_unknown_terms_score_alike cats_vectorizer pets_chunks cats_embeddings
           "cat" 2); [exact Hunknown|reflexivity].
Defined.

(** The ingestion of [notes.txt] in a new installation. *)
Lemma notes_ingested :
  process_document steady_llm "cat sat" "notes.txt" fresh =
    (Return (Success "cat sat" 1 "notes" 1), with_notes).
Proof. reflexivity. Qed.

(** The effects of X13 for [notes.txt]. *)
Lemma process_document_success_effects_notes :
  process_document steady_llm "cat sat" "notes.txt" fresh =
    (Return (Success "cat sat" 1 "notes" 1), with_notes) ∧
  ("notes" = path_stem (sanitize_filename "notes.txt") ∧
   (1 ≤ 1)%nat ∧
   uploads with_notes = <[sanitize_filename "notes.txt" := "cat sat"]> (uploads fresh) ∧
   (∃ store, load_vectorstore "notes" with_notes = Return (Some store) ∧
             length (texts store) = 1) ∧
   _validate_vectorstore "notes" with_notes = true ∧
   (∀ other, other ≠ "notes" → indexes with_notes !! other = indexes fresh !! other) ∧
   history with_notes = history fresh ∧
   chat_history_json with_notes = chat_history_json fresh ∧
   chat_history_backups with_notes = chat_history_backups fresh).
Proof.
  split; [exact notes_ingested|].
  exact (process_document_success_effects steady_llm "cat sat" "notes.txt" fresh
           with_notes "cat sat" 1 "notes" 1 notes_ingested).
Defined.

(** X14 in the session that ingested [notes.txt]: a second document. *)
Lemma process_document_keeps_fitted_embeddings_pets :
  is_fitted (embeddings with_notes) = true ∧
  embeddings (process_document steady_llm "dog barked" "pets.txt" with_notes).2 =
    embeddings with_notes.
Proof.
  split; [reflexivity|].
  apply (process_document_keeps_fitted_embeddings steady_llm "dog barked" "pets.txt"
           with_notes).
  reflexivity.
Defined.

Lemma notes_is_document_name : document_name "notes".
Proof. split; [discriminate|]. repeat constructor. Qed.

(** X15: [notes.txt] ingested, deleted and ingested again, the second time
    with a handler whose service cannot be reached. *)
Lemma reingestion_reproduces_index_notes :
  (embeddings_ok (embeddings fresh) ∧
   process_document steady_llm "cat sat" "notes.txt" fresh =
     (Return (Success "cat sat" 1 "notes" 1), with_notes) ∧
   embeddings without_notes = embeddings with_notes) ∧
  (is_fitted (embeddings with_notes) = true ∧
   ∃ text outcome later',
     process_document unreachable_llm "cat sat" "notes.txt" without_notes =
       (Return outcome, later') ∧
     load_vectorstore "notes" later' = load_vectorstore "notes" with_notes ∧
     embeddings later' = embeddings with_notes ∧
     summarize_pdf steady_llm text = Return "cat sat" ∧
     outcome =
       match summarize_pdf unreachable_llm text with
       | Return summary' => Success summary' 1 "notes" 1
       | Raise e => Error (str e)
       end).
Proof.
  split; [split; [reflexivity|]; split; [exact notes_ingested|reflexivity]|].
  apply (reingestion_reproduces_index steady_llm unreachable_llm "cat sat" "notes.txt"
           fresh with_notes without_notes "cat sat" 1 "notes" 1);
    [reflexivity | exact notes_ingested | reflexivity].
Defined.

(** The removal of X16 on the document [notes]. *)
Lemma delete_pdf_removes_only_the_document_notes :
  document_name "notes" ∧
  ∃ w',
    delete_pdf "notes" "20240501_100000" with_notes = (Return true, w') ∧
    _validate_vectorstore "notes" w' = false ∧
    load_vectorstore "notes" w' = Return None ∧
    ("notes" ∉ get_all_pdfs w') ∧
    (∀ name, glob_matches "notes" name = true → uploads w' !! name = None) ∧
    (∀ name, glob_matches "notes" name = false →
       uploads w' !! name = uploads with_notes !! name) ∧
    (∀ other, other ≠ "notes" →
       indexes w' !! other = indexes with_notes !! other ∧
       history w' !! other = history with_notes !! other) ∧
    embeddings w' = embeddings with_notes.
Proof.
  split; [exact notes_is_document_name|].
  exact (delete_pdf_removes_only_the_document "notes" "20240501_100000" with_notes
           notes_is_document_name).
Defined.

(** The question of X19 on [notes] after its removal. *)
Lemma query_after_delete_pdf_notes :
  document_name "notes" ∧
  let deleted := (delete_pdf "notes" "20240501_100000" with_notes).2 in
  query quoting_llm "notes" "Where did the cat sit?"
    "2024-05-01T10:00:00" "2024-05-01T10:00:01" deleted =
    (Return (no_answer "PDF not found or not processed yet."), deleted).
Proof.
  split; [exact notes_is_document_name|].
  exact (query_after_delete_pdf quoting_llm "notes" "Where did the cat sit?"
           "20240501_100000" "2024-05-01T10:00:00" "2024-05-01T10:00:01" with_notes
           notes_is_document_name).
Defined.

(** The question of X18 in a new installation. *)
Lemma query_without_index_fresh :
  (indexes fresh !! "notes" = None ∨ indexes fresh !! "notes" = Some ∅) ∧
  query quoting_llm "notes" "Where did the cat sit?"
    "2024-05-01T10:00:00" "2024-05-01T10:00:01" fresh =
    (Return {| answer := "PDF not found or not processed yet.";
               sources := []; context_used := ""; confidence := "low" |},
     fresh).
Proof.
  split; [by left|].
  apply (query_without_index quoting_llm "notes" "Where did the cat sit?"
           "2024-05-01T10:00:00" "2024-05-01T10:00:01" fresh).
  by left.
Defined.

(** The question of X20 on [notes] in a new process. *)
Lemma query_in_new_session_fails_notes :
  process_document steady_llm "cat sat" "notes.txt" fresh =
    (Return (Success "cat sat" 1 "notes" 1), with_notes) ∧
  query quoting_llm "notes" "Where did the cat sit?"
    "2024-05-01T10:00:00" "2024-05-01T10:00:01" (new_session with_notes) =
    (Return (no_answer ("Error processing question: " +:+
                        "Failed to search vectorstore: Vectorizer not fitted yet")),
     new_session with_notes).
Proof.
  split; [exact notes_ingested|].
  exact (query_in_new_session_fails steady_llm quoting_llm "cat sat" "notes.txt" fresh
           with_notes "cat sat" 1 "notes" 1 "Where did the cat sit?"
           "2024-05-01T10:00:00" "2024-05-01T10:00:01" notes_ingested).
Defined.

(** The question of X21 on [notes] in the session that ingested it. *)
Lemma query_after_ingestion_answers_notes :
  (embeddings_ok (embeddings fresh) ∧
   process_document steady_llm "cat sat" "notes.txt" fresh =
     (Return (Success "cat sat" 1 "notes" 1), with_notes)) ∧
  ∃ store search_results,
    load_vectorstore "notes" with_notes = Return (Some store) ∧
    search (embeddings with_notes) "Where did the cat sit?" store TOP_K_RESULTS =
      Return search_results ∧
    length search_results = 4 `min` 1 ∧
    match generate_answer quoting_llm "Where did the cat sit?"
            (_prepare_context search_results) with
    | Return response =>
        ∃ w'',
          query quoting_llm "notes" "Where did the cat sit?"
            "2024-05-01T10:00:00" "2024-05-01T10:00:01" with_notes =
            (Return {| answer := response_answer response;
                       sources := response_sources response;
                       context_used := _prepare_context search_results;
                       confidence := response_confidence response |},
             w'') ∧
          total_messages <$> get_statistics "notes" w'' =
            (λ s, 2 + total_messages s) <$> get_statistics "notes" with_notes
    | Raise e =>
        query quoting_llm "notes" "Where did the cat sit?"
          "2024-05-01T10:00:00" "2024-05-01T10:00:01" with_notes =
          (Return (no_answer ("Error processing question: " +:+ str e)), with_notes)
    end.
Proof.
  split; [split; [reflexivity|exact notes_ingested]|].
  exact (query_after_ingestion_answers steady_llm quoting_llm "cat sat" "notes.txt" fresh
           with_notes "cat sat" 1 "notes" 1 "Where did the cat sit?"
           "2024-05-01T10:00:00" "2024-05-01T10:00:01" embeddings_ok_init notes_ingested).
Defined.

(** The search on [notes] after its ingestion. *)
Lemma ingested_document_searchable_notes :
  (embeddings_ok (embeddings fresh) ∧
   process_document steady_llm "cat sat" "notes.txt" fresh =
     (Return (Success "cat sat" 1 "notes" 1), with_notes)) ∧
  ∃ store results,
    load_vectorstore "notes" with_notes = Return (Some store) ∧
    length (texts store) = 1 ∧
    search (embeddings with_notes) "cat" store 4 = Return results ∧
    non_increasing results.*2.
Proof.
  split; [split; [reflexivity|exact notes_ingested]|].
  exact (ingested_document_searchable steady_llm "cat sat" "notes.txt" fresh with_notes
           "cat sat" 1 "notes" 1 "cat" 4 embeddings_ok_init notes_ingested).
Defined.

(** The checks of X24 on a PDF named in capitals. *)
Lemma validate_pdf_implies_validate_document_capitals :
  (validate_pdf "Report.PDF" 1024).1 = true ∧
  (validate_document "Report.PDF" 1024 = (true, "Valid document file") ∧
   (0 < 1024 ≤ MAX_UPLOAD_SIZE)%nat).
Proof.
  split; [reflexivity|].
  apply (validate_pdf_implies_validate_document "Report.PDF" 1024). reflexivity.
Defined.

(** The name of X25: a PDF whose name has spaces and brackets. *)
Lemma validated_name_keeps_its_type_brackets :
  ((validate_document "my file (1).PDF" 1024).1 = true ∧
   (splitext "my file (1).PDF").2 ≠ "" ∧
   sanitize_filename "my file (1).PDF" ≠ (splitext "my file (1).PDF").2) ∧
  (lower (path_suffix (sanitize_filename "my file (1).PDF")) =
     "." +:+ lower (last_part "my file (1).PDF") ∧
   lower (path_suffix (sanitize_filename "my file (1).PDF")) ∈ allowed_types ∧
   names_upload_dir (sanitize_filename "my file (1).PDF") = false).
Proof.
  split; [split; [reflexivity|split; discriminate]|].
  apply (validated_name_keeps_its_type "my file (1).PDF" 1024);
    [reflexivity | discriminate | discriminate].
Defined.


(** The name of X30: the document of [notes.txt]. *)
Lemma ingested_document_has_document_name_notes :
  process_document steady_llm "cat sat" "notes.txt" fresh =
    (Return (Success "cat sat" 1 "notes" 1), with_notes) ∧
  (document_name "notes" ∧
   sanitize_filename "notes.txt" = "notes" +:+ (splitext "notes.txt").2 ∧
   lower (splitext "notes.txt").2 ∈ allowed_types).
Proof.
  split; [exact notes_ingested|].
  exact (ingested_document_has_document_name steady_llm "cat sat" "notes.txt" fresh
           with_notes "cat sat" 1 "notes" 1 notes_ingested).
Defined.

End SessionExamples.
